(** * devAIWorld23: the progress actor, the Monte Carlo estimate of pi and
      the supervisor/worker example

    A shallow embedding of the code cells of two notebooks:
    - [ex_02_remote_classes.ipynb]: [ProgressPIActor], [sampling_task] and
      the driver cells that poll the actor and compute pi;
    - the actor-tree notebook: [ModelFactory], [Supervisor], the
      wait-for-DONE loop and the presentation cell [sorted_by_mse].

    Python [int] is [Z].  A [float] computed by the code is the rational
    value of a double: [int / int] is the exact quotient rounded by [fl],
    the rounding being a parameter ([Float64]) of which only monotonicity
    and exactness on small integers are used.  The floats drawn by
    [random.uniform] only pass through [math.hypot] and a comparison, and
    are kept abstract ([Libm]).  Exceptions are values of [exn]; code that
    may raise returns an [outcome]. *)

From stdpp Require Import gmap strings list fin_maps sorting pretty.
From Stdlib Require Import QArith Qround Permutation Sorted Ascii.

Open Scope Z_scope.

(** * Part I: the model *)

(** ** A few Python notions shared by both notebooks *)

Module Py.

Inductive exn : Type :=
| Exception (msg : string)
| ZeroDivisionError
| OverflowError
| KeyError (key : string)
| TypeError.

Inductive outcome (A : Type) : Type :=
| Return (a : A)
| Raise (e : exn).
Arguments Return {A} a.
Arguments Raise {A} e.

#[global] Instance outcome_ret : MRet outcome := fun A a => Return a.
#[global] Instance outcome_bind : MBind outcome := fun A B f c =>
  match c with
  | Return a => f a
  | Raise e => Raise e
  end.

(** [for x in xs: body], the body threading the loop state and possibly
    raising. *)
Fixpoint for_in {A S : Type} (xs : list A) (body : A -> S -> outcome S)
    (s : S) : outcome S :=
  match xs with
  | [] => Return s
  | x :: xs' =>
      match body x s with
      | Return s' => for_in xs' body s'
      | Raise e => Raise e
      end
  end.

(** [range(n)]: empty when [n <= 0]. *)
Definition range (n : Z) : list Z := seqZ 0 n.

(** [sum(xs)] over integers, starting from [0] as the builtin does. *)
Definition sum (xs : list Z) : Z := fold_left Z.add xs 0.

(** Python's [float] is an IEEE double.  [fl q] is the double nearest to
    the rational [q], read back as a rational; [overflows q] tells that no
    finite double is, [q] being too large in magnitude.  Two facts about
    the rounding are used: it is monotone, and the integers up to 2^53 in
    magnitude are doubles. *)
Class Float64 : Type := {
  fl : Q -> Q;
  overflows : Q -> bool;
  fl_monotone : forall x y : Q, (x <= y)%Q -> (fl x <= fl y)%Q;
  fl_integer :
    forall n : Z, Z.abs n <= 2 ^ 53 -> (fl (inject_Z n) == inject_Z n)%Q;
  finite_range :
    forall x : Q,
      (inject_Z (- 2 ^ 53) <= x <= inject_Z (2 ^ 53))%Q -> overflows x = false
}.

(** [a / b] on two [int]s (true division): the quotient, correctly rounded;
    [ZeroDivisionError] for a zero divisor, [OverflowError] when the
    quotient is too large for a float. *)
Definition true_div {F : Float64} (a b : Z) : outcome Q :=
  if b =? 0 then Raise ZeroDivisionError
  else
    let q := (inject_Z a / inject_Z b)%Q in
    if overflows q then Raise OverflowError else Return (fl q).

(** [a % b]: Python's remainder has the sign of the divisor, as
    [Z.modulo] has; a zero divisor raises. *)
Definition mod_ (a b : Z) : outcome Z :=
  if b =? 0 then Raise ZeroDivisionError else Return (a mod b).

(** [x in xs] for strings. *)
Definition in_ (x : string) (xs : list string) : bool :=
  existsb (String.eqb x) xs.

(** [x == 1] for a float [x]. *)
Definition eq_int (x : Q) (n : Z) : bool := Qeq_bool x (inject_Z n).

(** The values stored in the result records. *)
Inductive value : Type :=
| VInt (n : Z)
| VFloat (x : Q)
| VStr (s : string).

(** A Python [dict] with string keys. *)
Abbreviation dict := (gmap string value).

(** [d[k]] *)
Definition getitem (d : dict) (k : string) : outcome value :=
  match d !! k with
  | Some v => Return v
  | None => Raise (KeyError k)
  end.

(** [operator.itemgetter(k)] *)
Definition itemgetter (k : string) : dict -> outcome value :=
  fun d => getitem d k.

Definition as_number (v : value) : option Q :=
  match v with
  | VInt n => Some (inject_Z n)
  | VFloat x => Some x
  | VStr _ => None
  end.

(** [a == b]: numbers compare by value, strings by content, a number and
    a string are never equal. *)
Definition value_eq (a b : value) : bool :=
  match a, b with
  | VStr s, VStr t => String.eqb s t
  | VStr _, _ | _, VStr _ => false
  | _, _ =>
      match as_number a, as_number b with
      | Some x, Some y => Qeq_bool x y
      | _, _ => false
      end
  end.

(** [a < b]: ordering a number against a string raises [TypeError]. *)
Definition value_lt (a b : value) : outcome bool :=
  match a, b with
  | VStr s, VStr t => Return (String.ltb s t)
  | VStr _, _ | _, VStr _ => Raise TypeError
  | _, _ =>
      match as_number a, as_number b with
      | Some x, Some y => Return (negb (Qle_bool y x))
      | _, _ => Raise TypeError
      end
  end.

(** [sorted(xs, key=key)]: the keys are computed first, in list order;
    the decorated list is then sorted with [<] only, equal keys keeping
    their input order (the builtin sort is stable, which fixes its result;
    a stable insertion sort computes the same list). *)
Fixpoint insert_by {A : Type} (kx : value) (x : A) (l : list (value * A))
    : outcome (list (value * A)) :=
  match l with
  | [] => Return [(kx, x)]
  | (ky, y) :: l' =>
      match value_lt ky kx with
      | Raise e => Raise e
      | Return true =>
          match insert_by kx x l' with
          | Return r => Return ((ky, y) :: r)
          | Raise e => Raise e
          end
      | Return false => Return ((kx, x) :: (ky, y) :: l')
      end
  end.

Fixpoint sort_decorated {A : Type} (l : list (value * A))
    : outcome (list (value * A)) :=
  match l with
  | [] => Return []
  | (kx, x) :: l' =>
      match sort_decorated l' with
      | Return s => insert_by kx x s
      | Raise e => Raise e
      end
  end.

Definition sorted {A : Type} (xs : list A) (key : A -> outcome value)
    : outcome (list A) :=
  match mapM (fun x => match key x with
                       | Return k => Return (k, x)
                       | Raise e => Raise e
                       end) xs with
  | Return decorated =>
      match sort_decorated decorated with
      | Return s => Return (map snd s)
      | Raise e => Raise e
      end
  | Raise e => Raise e
  end.

End Py.
Import Py.

(** ** ex_02_remote_classes.ipynb *)

(** [class ProgressPIActor].  A method takes the actor's state and returns
    its result together with the state it leaves behind. *)
Module ProgressPIActor.

Record self : Type := Self {
  total_num_samples : Z;
  num_samples_completed_per_task : gmap Z Z
}.

Definition method (A : Type) : Type := self -> outcome A * self.

(** [__init__(self, total_num_samples)] *)
Definition init (total_num_samples : Z) : self :=
  {| total_num_samples := total_num_samples;
     num_samples_completed_per_task := ∅ |}.

(** [self.num_samples_completed_per_task[task_id] = num_samples_completed] *)
Definition report_progress (task_id num_samples_completed : Z)
    : method unit :=
  fun s =>
    (Return tt,
     {| total_num_samples := total_num_samples s;
        num_samples_completed_per_task :=
          <[task_id := num_samples_completed]>
            (num_samples_completed_per_task s) |}).

(** [self.num_samples_completed_per_task.values()]; the order in which
    the counts are listed does not matter to their sum. *)
Definition values (d : gmap Z Z) : list Z := (map_to_list d).*2.

(** [sum(self.num_samples_completed_per_task.values())
     / self.total_num_samples] *)
Definition get_progress {F : Float64} : method Q :=
  fun s =>
    (true_div (sum (values (num_samples_completed_per_task s)))
              (total_num_samples s),
     s).

(** A call [report_progress.remote(task_id, n)] waiting in the actor's
    mailbox, and the actor working through a mailbox in order. *)
Definition call : Type := (Z * Z)%type.

Definition deliver (calls : list call) (s : self) : self :=
  fold_left (fun s c => snd (report_progress c.1 c.2 s)) calls s.

End ProgressPIActor.

(** The library side of [sampling_task]: the floats it draws,
    [math.hypot], and the comparison [<=] of a float with an integer
    literal.  The numbers that successive calls of [random.uniform(-1, 1)]
    return in the process running a task are an input of the task, a
    stream [uniform : nat -> float]. *)
Class Libm : Type := {
  float : Type;
  hypot : float -> float -> float;
  le_int : float -> Z -> bool
}.

Module Sampling.
Import ProgressPIActor.

(** The variables of the loop of [sampling_task]: [num_inside], how many
    random numbers were drawn so far, and the calls sent to the actor. *)
Record locals : Type := Locals {
  num_inside : Z;
  drawn : nat;
  sent : list call
}.

Section Task.
Context {L : Libm}.
Variable uniform : nat -> float.

Definition loop_body (task_id frequency_report : Z) (i : Z) (l : locals)
    : outcome locals :=
  let x := uniform (drawn l) in
  let y := uniform (S (drawn l)) in
  let num_inside' :=
    if le_int (hypot x y) 1 then num_inside l + 1 else num_inside l in
  match mod_ (i + 1) frequency_report with
  | Raise e => Raise e
  | Return r =>
      Return {| num_inside := num_inside';
                drawn := S (S (drawn l));
                sent := if r =? 0 then sent l ++ [(task_id, i + 1)]
                        else sent l |}
  end.

(** [sampling_task(num_samples, task_id, progress_actor,
    frequency_report)]: the returned count and the calls sent to
    [progress_actor], in the order they were sent.  The only exception
    the body can raise comes from [% frequency_report], in the first
    iteration, before anything is sent. *)
Definition sampling_task (num_samples task_id frequency_report : Z)
    : outcome (Z * list call) :=
  match for_in (range num_samples) (loop_body task_id frequency_report)
               {| num_inside := 0; drawn := 0%nat; sent := [] |} with
  | Raise e => Raise e
  | Return l => Return (num_inside l, sent l ++ [(task_id, num_samples)])
  end.
End Task.

(** The tunable parameters of the notebook. *)
Record params : Type := Params {
  NUM_SAMPLING_TASKS : Z;
  NUM_SAMPLES_PER_TASK : Z;
  SAMPLE_REPORT_FREQUENCY : Z
}.

Definition TOTAL_NUM_SAMPLES (p : params) : Z :=
  NUM_SAMPLING_TASKS p * NUM_SAMPLES_PER_TASK p.

(** The values the notebook ships with; [cpu_count] is what
    [os.cpu_count()] returned. *)
Definition notebook_params (cpu_count : Z) : params :=
  {| NUM_SAMPLING_TASKS := cpu_count;
     NUM_SAMPLES_PER_TASK := 10000000;
     SAMPLE_REPORT_FREQUENCY := 1000000 |}.

Section Driver.
Context {L : Libm} {F : Float64}.
Variable p : params.
(** [uniform i] is the random stream of the process that runs task [i]. *)
Variable uniform : Z -> nat -> float.

(** [progress_actor = ProgressPIActor.remote(TOTAL_NUM_SAMPLES)] *)
Definition progress_actor : self := init (TOTAL_NUM_SAMPLES p).

(** [results = [sampling_task.remote(NUM_SAMPLES_PER_TASK, i,
    progress_actor, frequency_report=SAMPLE_REPORT_FREQUENCY)
    for i in range(NUM_SAMPLING_TASKS)]] *)
Definition results : list (outcome (Z * list call)) :=
  map (fun i => sampling_task (uniform i) (NUM_SAMPLES_PER_TASK p) i
                  (SAMPLE_REPORT_FREQUENCY p))
      (range (NUM_SAMPLING_TASKS p)).

(** [ray.get(results)]: the returned values in list order; a task that
    raised makes [ray.get] raise. *)
Definition ray_get_results : outcome (list Z) :=
  mapM (fun r => match r with
                 | Return (n, _) => Return n
                 | Raise e => Raise e
                 end) results.

(** [total_num_inside = sum(ray.get(results))] *)
Definition total_num_inside : outcome Z :=
  match ray_get_results with
  | Return ns => Return (sum ns)
  | Raise e => Raise e
  end.

(** [pi = (total_num_inside * 4) / TOTAL_NUM_SAMPLES] *)
Definition pi : outcome Q :=
  match total_num_inside with
  | Return t => true_div (t * 4) (TOTAL_NUM_SAMPLES p)
  | Raise e => Raise e
  end.
End Driver.

(** One pass of the polling loop:
    [progress = ray.get(progress_actor.get_progress.remote())] and the
    test [progress == 1] that guards [break]. *)
Definition poll {F : Float64} (a : self) : outcome bool :=
  match fst (get_progress a) with
  | Return progress => Return (eq_int progress 1)
  | Raise e => Raise e
  end.

End Sampling.

(** An instance of the library functions to run the model on: floats are
    rationals and [hypot] returns the squared norm, which is at most 1
    exactly when the norm is. *)
Definition exact_libm : Libm :=
  {| float := Q;
     hypot := fun x y => (x * x + y * y)%Q;
     le_int := fun x n => Qle_bool x (inject_Z n) |}.

(** Rounding that changes nothing, to run the model on quotients that are
    doubles already. *)
Definition exact_float64 : Float64 :=
  {| fl := fun q => q;
     overflows := fun _ => false;
     fl_monotone := fun _ _ Hle => Hle;
     fl_integer := fun n _ => Qeq_refl (inject_Z n);
     finite_range := fun _ _ => eq_refl |}.

(** A random stream for tests: task [i] draws [0, 1/2, 1, 1/2, 0, ...]. *)
Definition test_uniform (i : Z) (n : nat) : Q :=
  match (n mod 4)%nat with
  | 0%nat => 0
  | 2%nat => 1
  | _ => 1 # 2
  end.

(** ** The supervisor/worker notebook *)

Module ActorTree.

(** The three actor classes imported from [model_helper_utils], and the
    handle [Cls.remote(configs)] returns. *)
Inductive actor_class : Type := RFRActor | DTActor | XGBoostActor.

Record ActorHandle : Type := {
  handle_class : actor_class;
  handle_configs : dict
}.

Definition remote (c : actor_class) (configs : dict) : ActorHandle :=
  {| handle_class := c; handle_configs := configs |}.

(** What the notebook takes from [model_helper_utils] besides the classes:
    the three configuration dictionaries, and the training routine the
    workers run.  Their source is not in the notebook. *)
Class ModelHelperUtils : Type := {
  RANDOM_FOREST_CONFIGS : dict;
  DECISION_TREE_CONFIGS : dict;
  XGBOOST_CONFIGS : dict;
  train_and_evaluate_model : ActorHandle -> dict
}.

Module ModelFactory.
Definition MODEL_TYPES : list string :=
  ["random_forest"; "decision_tree"; "xgboost"]%string.

Definition create_model {U : ModelHelperUtils} (model_name : string)
    : outcome ActorHandle :=
  if negb (in_ model_name MODEL_TYPES) then
    Raise (Exception (model_name ++ " not supported"))
  else if String.eqb model_name "random_forest" then
    let configs := RANDOM_FOREST_CONFIGS in
    Return (remote RFRActor configs)
  else if String.eqb model_name "decision_tree" then
    let configs := DECISION_TREE_CONFIGS in
    Return (remote DTActor configs)
  else
    let configs := XGBOOST_CONFIGS in
    Return (remote XGBoostActor configs).
End ModelFactory.

Module Supervisor.
Record self : Type := Self { worker_models : list ActorHandle }.

(** [self.worker_models = [ModelFactory.create_model(name)
                           for name in ModelFactory.MODEL_TYPES]] *)
Definition init {U : ModelHelperUtils} : outcome self :=
  match mapM ModelFactory.create_model ModelFactory.MODEL_TYPES with
  | Return ws => Return {| worker_models := ws |}
  | Raise e => Raise e
  end.

(** [results = [w.train_and_evaluate_model.remote() for w in
    self.worker_models]; return ray.get(results)]: [ray.get] on a list
    of futures returns their values in list order. *)
Definition work {U : ModelHelperUtils} (s : self) : list dict :=
  map train_and_evaluate_model (worker_models s).
End Supervisor.

(** [supervisor = Supervisor.remote(); results = supervisor.work.remote();
    values = ray.get(results)] *)
Definition values {U : ModelHelperUtils} : outcome (list dict) :=
  match Supervisor.init with
  | Return supervisor => Return (Supervisor.work supervisor)
  | Raise e => Raise e
  end.

(** One pass through the body of the [while True] loop that waits for the
    models: the inner [for] appends every [value["state"]] to [states],
    then [result = all('DONE' == e for e in states)].  The boolean tells
    whether [break] is taken. *)
Definition wait_body (values : list dict) (states : list value)
    : outcome (bool * list value) :=
  match for_in values
          (fun value states =>
             match getitem value "state" with
             | Return st => Return (states ++ [st])
             | Raise e => Raise e
             end) states with
  | Raise e => Raise e
  | Return states' =>
      Return (forallb (fun e => value_eq (VStr "DONE") e) states', states')
  end.

(** The loop, run for at most [fuel] passes.  [None]: the loop is still
    running after [fuel] passes.  [Some (Return states)]: it left through
    [break].  [Some (Raise e)]: it was left by an exception. *)
Fixpoint wait_loop (fuel : nat) (values : list dict) (states : list value)
    : option (outcome (list value)) :=
  match fuel with
  | O => None
  | S fuel' =>
      match wait_body values states with
      | Raise e => Some (Raise e)
      | Return (true, states') => Some (Return states')
      | Return (false, states') => wait_loop fuel' values states'
      end
  end.

(** [states] after [n] passes that did not leave the loop. *)
Fixpoint states_after (n : nat) (values : list dict) (states : list value)
    : option (list value) :=
  match n with
  | O => Some states
  | S n' =>
      match wait_body values states with
      | Return (false, states') => states_after n' values states'
      | _ => None
      end
  end.

(** [sorted_by_mse = sorted(values, key=itemgetter('mse'))] *)
Definition sorted_by_mse (values : list dict) : outcome (list dict) :=
  sorted values (itemgetter "mse").

(** The records the notebook's saved output shows, in the order of
    [MODEL_TYPES]. *)
Definition recorded_random_forest : dict :=
  {[ "estimators" := VInt 150; "mse" := VFloat (2529 # 10000);
     "name" := VStr "random_forest"; "state" := VStr "DONE";
     "time" := VFloat (1241 # 100) ]}%string.

Definition recorded_decision_tree : dict :=
  {[ "max_depth" := VInt 15; "mse" := VFloat (4859 # 10000);
     "name" := VStr "decision_tree"; "state" := VStr "DONE";
     "time" := VFloat (11 # 100) ]}%string.

Definition recorded_xgboost : dict :=
  {[ "estimators" := VInt 150; "max_depth" := VInt 10;
     "mse" := VFloat (2212 # 10000); "name" := VStr "xgboost";
     "state" := VStr "DONE"; "time" := VFloat (116 # 100) ]}%string.

Definition recorded_values : list dict :=
  [recorded_random_forest; recorded_decision_tree; recorded_xgboost].

End ActorTree.

(** ** Notions used to state the properties *)

Module Progress.
Import ProgressPIActor.

(** The count recorded for a task identifier ([0] when none is). *)
Definition recorded (d : gmap Z Z) (task_id : Z) : Z :=
  default 0 (d !! task_id).

(** The sum of the recorded counts over all task identifiers, written
    over the identifiers that have an entry. *)
Definition recorded_total (d : gmap Z Z) : Z :=
  sum (map (recorded d) (elements (dom d))).

(** The count carried by the last call for [task_id] in a mailbox, [acc]
    when there is none. *)
Fixpoint last_report (task_id : Z) (calls : list call) (acc : option Z)
    : option Z :=
  match calls with
  | [] => acc
  | c :: calls' =>
      last_report task_id calls' (if c.1 =? task_id then Some c.2 else acc)
  end.

(** A call as the sampling tasks of a run with [k] tasks of [m] samples
    each make them: task identifier in [range(k)], count between [0] and
    [m]. *)
Definition task_call (k m : Z) (c : call) : Prop :=
  (0 <= c.1 < k) /\ (0 <= c.2 <= m).

(** The points of one task that fall inside the circle, counted over the
    random stream: iteration [i] draws numbers [2i] and [2i+1]. *)
Definition inside_count {L : Libm} (uniform : nat -> float) (num_samples : Z)
    : Z :=
  Z.of_nat
    (length
       (filter (fun i => le_int (hypot (uniform (2 * i)%nat)
                                       (uniform (2 * i + 1)%nat)) 1 = true)
               (seq 0 (Z.to_nat num_samples)))).

End Progress.

Module Results.
Import ActorTree.

(** [sub] occurs in [s]. *)
Definition contains (sub s : string) : Prop :=
  exists pre post : string, s = (pre ++ sub ++ post)%string.

(** The keys of a results record. *)
Definition result_keys : list string :=
  ["name"; "mse"; "time"; "state"]%string.

Definition has_result_keys (r : dict) : Prop :=
  Forall (fun k => is_Some (r !! k)) result_keys.

(** The record has a numeric ['mse']. *)
Definition mse_of (r : dict) : option Q :=
  match r !! "mse"%string with
  | Some v => as_number v
  | None => None
  end.

(** [r1]'s ['mse'] is less than or equal to [r2]'s. *)
Definition mse_le (r1 r2 : dict) : Prop :=
  exists x y : Q, mse_of r1 = Some x /\ mse_of r2 = Some y /\ (x <= y)%Q.

(** The record's ['state'] is equal to ['DONE']. *)
Definition is_done (r : dict) : bool :=
  match r !! "state"%string with
  | Some v => value_eq (VStr "DONE") v
  | None => false
  end.

Definition all_done (values : list dict) : bool := forallb is_done values.

(** The decorated lists [sorted] works on, for elements whose key is
    the number [num] gives: every key is the number of the element it
    decorates, and the order on decorated elements is that of the
    numbers. *)
Definition keyed {A : Type} (num : A -> Q) (p : value * A) : Prop :=
  as_number p.1 = Some (num p.2).

Definition key_le {A : Type} (num : A -> Q) (p q : value * A) : Prop :=
  (num p.2 <= num q.2)%Q.

(** Modelled from the spec: the [train_and_evaluate_model] method of the
    worker classes, whose source ([model_helper_utils]) is not in the
    notebook.  The spec describes its result as one of "a results list of
    {name, mse, time, state} records"; [measured] stands for what a run
    of the worker produces for the four fields. *)
Definition train_and_evaluate_model_spec
    (measured : ActorHandle -> string * Q * Q * string)
    (worker : ActorHandle) : dict :=
  let '(name, mse, time, state) := measured worker in
  {[ "name" := VStr name; "mse" := VFloat mse;
     "time" := VFloat time; "state" := VStr state ]}%string.

Definition spec_helper_utils (rf dt xgb : dict)
    (measured : ActorHandle -> string * Q * Q * string)
    : ModelHelperUtils :=
  {| RANDOM_FOREST_CONFIGS := rf;
     DECISION_TREE_CONFIGS := dt;
     XGBOOST_CONFIGS := xgb;
     train_and_evaluate_model := train_and_evaluate_model_spec measured |}.

(** The record's 'mse' is a number equal to [x]. *)
Definition mse_is (x : Q) (r : dict) : bool :=
  match mse_of r with
  | Some y => Qeq_bool y x
  | None => false
  end.

End Results.

(** ** More of ex_02_remote_classes.ipynb: the run as a whole *)

Module Run.
Import ProgressPIActor Sampling.

(** The calls each task of [results] sends to the actor, task by task, in
    the order of [results]; a task that raised sent nothing. *)
Definition outboxes {L : Libm} (p : params) (uniform : Z -> nat -> float)
    : list (list call) :=
  map (fun r => match r with
                | Return (_, calls) => calls
                | Raise _ => []
                end) (results p uniform).

(** The tasks run in parallel and the actor works through their calls one
    at a time: the calls of one task in the order the task sent them, the
    calls of different tasks in any order.  [deliveries pending mailbox
    pending']: starting with the calls [pending] not yet delivered, task
    by task, the actor works through [mailbox], which leaves [pending']. *)
Inductive deliveries
  : list (list call) -> list call -> list (list call) -> Prop :=
| deliveries_none pending : deliveries pending [] pending
| deliveries_next pending i c queue mailbox pending' :
    pending !! i = Some (c :: queue) ->
    deliveries (<[i := queue]> pending) mailbox pending' ->
    deliveries pending (c :: mailbox) pending'.

(** [int(x)] on a float truncates toward zero. *)
Definition int_ (x : Q) : Z := Z.quot (Qnum x) (Z.pos (Qden x)).

(** [int(progress * 100)]: the product is rounded; a product too large for
    a float is infinite, which [int] refuses. *)
Definition percent {F : Float64} (progress : Q) : outcome Z :=
  let x := (progress * inject_Z 100)%Q in
  if overflows x then Raise OverflowError else Return (int_ (fl x)).

(** One pass of the polling loop: the percentage it prints and whether
    [progress == 1] makes it [break]. *)
Definition poll_pass {F : Float64} (a : self) : outcome (Z * bool) :=
  match fst (get_progress a) with
  | Raise e => Raise e
  | Return progress =>
      match percent progress with
      | Raise e => Raise e
      | Return pct => Return (pct, eq_int progress 1)
      end
  end.

(** The polling loop.  [batches] lists what the actor works through
    before the first poll, between the first and the second, and so on;
    [printed] collects the percentages printed so far.  The boolean tells
    whether the loop left through [break]; it is [false] when the loop is
    still polling after the last batch. *)
Fixpoint polling_loop {F : Float64} (batches : list (list call)) (a : self)
    (printed : list Z) : outcome (list Z * bool) :=
  match batches with
  | [] => Return (printed, false)
  | batch :: batches' =>
      let a' := deliver batch a in
      match poll_pass a' with
      | Raise e => Raise e
      | Return (pct, true) => Return (printed ++ [pct], true)
      | Return (pct, false) => polling_loop batches' a' (printed ++ [pct])
      end
  end.

(** What holds of the calls still pending and of the counts [d] the actor
    has recorded, at any moment of a run with [k] tasks of [m] samples:
    there is one queue per task; the calls pending for task [i] are calls
    of task [i], in non-decreasing order of their counts, none below the
    count recorded for [i] and none above [m]; the last one is the final
    call [(i, m)], unless nothing is pending and [m] is what is recorded
    for [i]; and the recorded counts are counts of the [k] tasks, between
    [0] and [m]. *)
Definition queue_ok (m : Z) (d : gmap Z Z) (i : nat) (queue : list call)
    : Prop :=
  Forall (fun c => c.1 = Z.of_nat i /\
                   default 0 (d !! Z.of_nat i) <= c.2 <= m) queue /\
  StronglySorted (fun c c' : call => c.2 <= c'.2) queue /\
  (last queue = Some (Z.of_nat i, m)
   \/ (queue = [] /\ d !! Z.of_nat i = Some m)).

Definition run_ok (k m : Z) (pending : list (list call)) (d : gmap Z Z)
    : Prop :=
  length pending = Z.to_nat k /\
  (forall i queue, pending !! i = Some queue -> queue_ok m d i queue) /\
  (forall t n, d !! t = Some n -> 0 <= t < k /\ 0 <= n <= m).

End Run.

(** ** The supervisor/worker notebook: the shard files of the second
       example *)

Module BatchInference.

(** A string of [n] zeros. *)
Fixpoint zeros (n : nat) : string :=
  match n with
  | O => ""
  | S n' => String "0"%char (zeros n')
  end.

(** [f"{i:06d}"]: the decimal digits of [i], with zeros in front up to a
    width of 6, the sign of a negative number counting in the width and
    standing before the zeros; a number that needs more than 6 characters
    is written in full. *)
Definition format_06d (i : Z) : string :=
  if i <? 0 then
    "-" +:+ zeros (5 - String.length (pretty (- i))) +:+ pretty (- i)
  else zeros (6 - String.length (pretty i)) +:+ pretty i.

(** One element of the comprehension: the two adjacent f-strings are one
    string. *)
Definition shard_path (i : Z) : string :=
  "s3://anonymous@air-example-data/ursa-labs-taxi-data/downsampled_2009_full_year_data.parquet"
  +:+ "/fe41422b01c04169af2a65a83b753e0f_" +:+ format_06d i +:+ ".parquet".

(** [input_shard_files = [... for i in range(NUM_SHARD_FILES)]] *)
Definition input_shard_files (num_shard_files : Z) : list string :=
  map shard_path (range num_shard_files).

Definition NUM_SHARD_FILES : Z := 12.

(** A string without the zeros it starts with. *)
Fixpoint strip_zeros (s : string) : string :=
  match s with
  | String c s' => if Ascii.eqb c "0"%char then strip_zeros s' else s
  | EmptyString => s
  end.

End BatchInference.

(** Helper utilities to run the factory on: each configuration holds the
    name of its model, and training returns the configuration. *)
Definition test_helper_utils : ActorTree.ModelHelperUtils :=
  {| ActorTree.RANDOM_FOREST_CONFIGS := {[ "name"%string := VStr "random_forest" ]};
     ActorTree.DECISION_TREE_CONFIGS := {[ "name"%string := VStr "decision_tree" ]};
     ActorTree.XGBOOST_CONFIGS := {[ "name"%string := VStr "xgboost" ]};
     ActorTree.train_and_evaluate_model := ActorTree.handle_configs |}.

(** * Part II: properties *)

(** ** Sums *)

Lemma sum_from (xs : list Z) (a : Z) : fold_left Z.add xs a = a + sum xs.
Proof.
  unfold sum. revert a.
  induction xs as [|x xs IH]; intros a; simpl; [lia|].
  rewrite (IH (a + x)), (IH (0 + x)). lia.
Qed.

Lemma sum_nil : sum [] = 0.
Proof. reflexivity. Qed.

Lemma sum_cons (x : Z) (xs : list Z) : sum (x :: xs) = x + sum xs.
Proof. unfold sum at 1. simpl. apply sum_from. Qed.

Lemma sum_app (xs ys : list Z) : sum (xs ++ ys) = sum xs + sum ys.
Proof.
  induction xs as [|x xs IH]; simpl; [rewrite sum_nil; lia|].
  rewrite !sum_cons, IH. lia.
Qed.

Lemma sum_Permutation (xs ys : list Z) : xs ≡ₚ ys -> sum xs = sum ys.
Proof.
  induction 1 as [|x xs ys _ IH|x y xs|xs ys zs _ IH1 _ IH2].
  - reflexivity.
  - rewrite !sum_cons. lia.
  - rewrite !sum_cons. lia.
  - congruence.
Qed.

Lemma sum_bounds (lo hi : Z) (xs : list Z) :
  Forall (fun x => lo <= x <= hi) xs ->
  Z.of_nat (length xs) * lo <= sum xs <= Z.of_nat (length xs) * hi.
Proof.
  induction 1 as [|x xs Hx _ IH]; [rewrite sum_nil; simpl; lia|].
  rewrite sum_cons. cbn [length]. lia.
Qed.

Lemma sum_map_const (A : Type) (c : Z) (xs : list A) :
  sum (map (fun _ => c) xs) = Z.of_nat (length xs) * c.
Proof.
  induction xs as [|x xs IH]; [reflexivity|].
  cbn [map length]. rewrite sum_cons, IH. lia.
Qed.

(** ** The progress actor *)

Section ProgressFacts.
Import ProgressPIActor Progress.
Implicit Types (d : gmap Z Z) (s : self) (calls : list call).

Lemma values_empty : values ∅ = [].
Proof. unfold values. by rewrite map_to_list_empty. Qed.

Lemma sum_values_insert_fresh d t n :
  d !! t = None -> sum (values (<[t := n]> d)) = n + sum (values d).
Proof.
  intros Hfresh. unfold values.
  rewrite (sum_Permutation _ (((t, n) :: map_to_list d).*2)).
  - cbn [fmap list_fmap snd]. apply sum_cons.
  - apply fmap_Permutation. by apply map_to_list_insert.
Qed.

Lemma sum_values_delete d t :
  sum (values d) = recorded d t + sum (values (delete t d)).
Proof.
  unfold recorded. destruct (d !! t) as [n|] eqn:Ht; simpl.
  - rewrite <- (sum_values_insert_fresh (delete t d) t n)
      by apply lookup_delete_eq.
    by rewrite insert_delete_id.
  - by rewrite delete_id.
Qed.

(** Assigning to an entry replaces what it held. *)
Lemma sum_values_insert d t n :
  sum (values (<[t := n]> d)) = sum (values d) - recorded d t + n.
Proof.
  rewrite (sum_values_delete (<[t := n]> d) t), (sum_values_delete d t).
  unfold recorded at 1. rewrite lookup_insert_eq, delete_insert_eq. simpl. lia.
Qed.

(** [sum(d.values())] is the sum of the recorded counts over the task
    identifiers. *)
Lemma sum_values_recorded_total d : sum (values d) = recorded_total d.
Proof.
  unfold recorded_total.
  induction d as [|t n d Hfresh IH] using map_ind.
  - by rewrite values_empty, dom_empty_L, elements_empty.
  - rewrite sum_values_insert_fresh by done.
    rewrite dom_insert_L.
    rewrite (sum_Permutation
               (map (recorded (<[t := n]> d)) (elements ({[t]} ∪ dom d)))
               (map (recorded (<[t := n]> d)) (t :: elements (dom d)))).
    + cbn [map]. rewrite sum_cons. unfold recorded at 1.
      rewrite lookup_insert_eq. change (default 0 (Some n)) with n.
      rewrite IH. do 2 f_equal.
      apply map_ext_in. intros t' Hin. unfold recorded.
      rewrite lookup_insert_ne; [done|].
      intros ->. apply list_elem_of_In, elem_of_elements, elem_of_dom in Hin.
      rewrite Hfresh in Hin. by destruct Hin.
    + apply Permutation_map, elements_union_singleton.
      by apply not_elem_of_dom.
Qed.

(** When all task identifiers lie in [range(n)], the sum runs over
    [range(n)]. *)
Lemma sum_values_range (n : nat) d :
  (forall t, is_Some (d !! t) -> 0 <= t < Z.of_nat n) ->
  sum (values d) = sum (map (recorded d) (range (Z.of_nat n))).
Proof.
  revert d. induction n as [|n IH]; intros d Hdom.
  - assert (d = ∅) as ->; [|by rewrite values_empty].
    apply map_empty. intros t. apply eq_None_not_Some.
    intros Hsome. apply Hdom in Hsome. lia.
  - unfold range in *. rewrite seqZ_S, map_app, sum_app. cbn [map].
    rewrite sum_cons, sum_nil, Z.add_0_l, Z.add_0_r.
    rewrite (sum_values_delete d (Z.of_nat n)), IH.
    + rewrite Z.add_comm. do 2 f_equal. apply map_ext_in. intros t Hin.
      apply list_elem_of_In, elem_of_seqZ in Hin. unfold recorded.
      rewrite lookup_delete_ne; [done|lia].
    + intros t Hsome. destruct (decide (t = Z.of_nat n)) as [->|Hne].
      * rewrite lookup_delete_eq in Hsome. by destruct Hsome.
      * rewrite lookup_delete_ne in Hsome by done.
        apply Hdom in Hsome. lia.
Qed.

Lemma last_report_app t calls calls' acc :
  last_report t (calls ++ calls') acc
  = last_report t calls' (last_report t calls acc).
Proof.
  revert acc. induction calls as [|c calls IH]; intros acc; [done|].
  cbn [app last_report]. apply IH.
Qed.

Lemma deliver_total calls s :
  total_num_samples (deliver calls s) = total_num_samples s.
Proof.
  revert s. induction calls as [|c calls IH]; intros s; [done|].
  unfold deliver in *. cbn [fold_left]. by rewrite IH.
Qed.

Lemma deliver_lookup calls s t :
  num_samples_completed_per_task (deliver calls s) !! t
  = last_report t calls (num_samples_completed_per_task s !! t).
Proof.
  revert s. induction calls as [|[t' n] calls IH]; intros s; [done|].
  unfold deliver in *. cbn [fold_left last_report]. rewrite IH.
  f_equal. cbn. destruct (Z.eqb_spec t' t) as [->|Hne].
  - by rewrite lookup_insert_eq.
  - by rewrite lookup_insert_ne.
Qed.

End ProgressFacts.

(** ** Quotients of integers *)

Lemma quotient_bounds (a b c : Z) :
  0 < b -> 0 <= a <= c * b ->
  (0 <= inject_Z a / inject_Z b <= inject_Z c)%Q.
Proof.
  intros Hb [Ha Hac].
  assert (0 < inject_Z b)%Q as HbQ.
  { change 0%Q with (inject_Z 0). by rewrite <- Zlt_Qlt. }
  split.
  - apply Qle_shift_div_l; [done|]. rewrite Qmult_0_l.
    change 0%Q with (inject_Z 0). by rewrite <- Zle_Qle.
  - apply Qle_shift_div_r; [done|].
    by rewrite <- inject_Z_mult, <- Zle_Qle.
Qed.

Lemma quotient_one (a : Z) : a <> 0 -> (inject_Z a / inject_Z a == 1)%Q.
Proof.
  intros Ha. apply Qmult_inv_r. intros Heq.
  by apply Ha, (inject_Z_injective a 0).
Qed.

(** ** Division of integers, rounded *)

Section TrueDiv.
Context {F : Float64}.

Lemma fl_proper (x y : Q) : (x == y)%Q -> (fl x == fl y)%Q.
Proof.
  intros Hxy. apply Qle_antisym; apply fl_monotone; rewrite Hxy; apply Qle_refl.
Qed.

(** A quotient between [0] and a small integer [c] is returned, rounded,
    and the rounded value is between [0] and [c] too. *)
Lemma true_div_bounded (a b c : Z) :
  0 < b -> 0 <= a <= c * b -> c <= 2 ^ 53 ->
  exists q : Q,
    true_div a b = Return q /\
    q = fl (inject_Z a / inject_Z b) /\
    (0 <= q <= inject_Z c)%Q.
Proof.
  intros Hb Ha Hc.
  destruct (quotient_bounds a b c Hb Ha) as [Hlo Hhi].
  assert (0 <= c) as Hc0 by nia.
  exists (fl (inject_Z a / inject_Z b)). split; [|split; [done|]].
  - unfold true_div. destruct (Z.eqb_spec b 0); [lia|]. cbv zeta.
    rewrite finite_range; [done|]. split.
    + eapply Qle_trans; [|exact Hlo]. by vm_compute.
    + eapply Qle_trans; [exact Hhi|]. by rewrite <- Zle_Qle.
  - split.
    + rewrite <- (fl_integer 0) by (by vm_compute). by apply fl_monotone.
    + rewrite <- (fl_integer c) by lia. by apply fl_monotone.
Qed.

(** [n / n] is [1.0]. *)
Lemma true_div_same (a : Z) :
  a <> 0 -> exists q : Q, true_div a a = Return q /\ (q == 1)%Q.
Proof.
  intros Ha. pose proof (quotient_one a Ha) as Hone.
  exists (fl (inject_Z a / inject_Z a)). split.
  - unfold true_div. destruct (Z.eqb_spec a 0); [done|]. cbv zeta.
    rewrite finite_range; [done|]. rewrite Hone. by vm_compute.
  - rewrite (fl_proper _ _ Hone). by apply (fl_integer 1).
Qed.

End TrueDiv.

(** ** Claims about the progress actor *)

Section ProgressClaims.
Import ProgressPIActor Progress.
Context {F : Float64}.
Implicit Types (d : gmap Z Z) (s : self) (calls : list call).

(** C3.  [report_progress(task_id, n)] returns nothing and sets the entry
    of [task_id] to [n], whatever the entry held before: the new total of
    the recorded counts is the old one with the previous count of
    [task_id] replaced by [n].  [get_progress] returns the sum of the
    recorded counts over all task identifiers divided, with Python's [/]
    on integers, by the [total_num_samples] given at construction. *)
Theorem report_progress_sets_get_progress_sums s task_id n :
  let d := num_samples_completed_per_task s in
  let s' := (report_progress task_id n s).2 in
  let d' := num_samples_completed_per_task s' in
  (report_progress task_id n s).1 = Return tt /\
  d' !! task_id = Some n /\
  recorded_total d' = recorded_total d - recorded d task_id + n /\
  (get_progress s).1 = true_div (recorded_total d) (total_num_samples s) /\
  forall total, num_samples_completed_per_task (init total) = ∅
                /\ total_num_samples (init total) = total.
Proof.
  cbn zeta. repeat split.
  - cbn. apply lookup_insert_eq.
  - rewrite <- !sum_values_recorded_total. cbn. apply sum_values_insert.
  - cbn. by rewrite sum_values_recorded_total.
Qed.

(** C8.  [get_progress] leaves the actor's state unchanged;
    [report_progress(task_id, n)] leaves [total_num_samples] unchanged
    and, for every other task identifier, leaves the recorded count (or
    its absence) unchanged. *)
Theorem progress_actor_frame s task_id n other :
  other <> task_id ->
  (get_progress s).2 = s /\
  total_num_samples (report_progress task_id n s).2 = total_num_samples s /\
  num_samples_completed_per_task (report_progress task_id n s).2 !! other
  = num_samples_completed_per_task s !! other.
Proof.
  intros Hne. repeat split. cbn. by apply lookup_insert_ne.
Qed.

End ProgressClaims.

Section ProgressClaimsInstances.
Import ProgressPIActor Progress.

Lemma progress_actor_frame_witness :
  let s := deliver [(0, 5); (1, 3)] (init 20) in
  (get_progress (F := exact_float64) s).2 = s /\
  total_num_samples (report_progress 0 9 s).2 = 20 /\
  num_samples_completed_per_task (report_progress 0 9 s).2 !! 1 = Some 3.
Proof.
  exact (progress_actor_frame (F := exact_float64)
           (deliver [(0, 5); (1, 3)] (init 20)) 0 9 1 ltac:(lia)).
Defined.

End ProgressClaimsInstances.

Section ProgressRatio.
Import ProgressPIActor Progress.
Context {F : Float64}.
Implicit Types (d : gmap Z Z) (s : self) (calls : list call).

(** The last call for a task is one of the calls of the mailbox. *)
Lemma last_report_elem t calls acc n :
  last_report t calls acc = Some n -> acc = Some n \/ (t, n) ∈ calls.
Proof.
  revert acc. induction calls as [|[t' n'] calls IH]; intros acc Hlast.
  - by left.
  - cbn [last_report] in Hlast. apply IH in Hlast as [Hacc|Hin].
    + cbn in Hacc. destruct (Z.eqb_spec t' t) as [->|_]; [|by left].
      right. simplify_eq. apply list_elem_of_here.
    + right. by apply list_elem_of_further.
Qed.

Lemma last_report_task_call k m t calls n :
  Forall (task_call k m) calls ->
  last_report t calls None = Some n ->
  0 <= t < k /\ 0 <= n <= m.
Proof.
  intros Hcalls Hlast. apply last_report_elem in Hlast as [?|Hin]; [done|].
  rewrite Forall_forall in Hcalls. by apply Hcalls in Hin.
Qed.

(** C2, the claim as stated fails: nothing in the actor relates the
    reported counts to [total_num_samples].  After
    [report_progress(0, 20)] on an actor built with [total_num_samples =
    10], [get_progress] returns 2. *)
Lemma progress_can_exceed_one :
  exists q : Q,
    (get_progress (F := exact_float64) (deliver [(0, 20)] (init 10))).1
    = Return q /\
    (q == 2)%Q /\ ~ (0 <= q <= 1)%Q.
Proof.
  eexists. split; [vm_compute; reflexivity|]. split; [reflexivity|].
  intros [_ Hle]. vm_compute in Hle. by apply Hle.
Qed.

(** The same holds whatever the rounding: 20 / 10 is the double 2.0. *)
Lemma progress_is_two :
  exists q : Q,
    (get_progress (deliver [(0, 20)] (init 10))).1 = Return q /\ (q == 2)%Q.
Proof.
  assert (inject_Z 20 / inject_Z 10 == inject_Z 2)%Q as Htwo by reflexivity.
  exists (fl (inject_Z 20 / inject_Z 10)). split.
  - change ((get_progress (deliver [(0, 20)] (init 10))).1)
      with (true_div 20 10).
    unfold true_div. cbn [Z.eqb]. cbv zeta.
    rewrite finite_range; [done|]. rewrite Htwo. by vm_compute.
  - rewrite (fl_proper _ _ Htwo). by apply (fl_integer 2).
Qed.

(** C2, amended.  For an actor built with [total_num_samples = k * m]
    ([k] tasks of [m] samples each, both positive), after any finite
    sequence of calls [report_progress(task_id, n)] with [task_id] in
    [range(k)] and [0 <= n <= m], [get_progress] returns a value in
    the interval [0, 1] and raises nothing. *)
Theorem progress_in_unit_interval (k m : Z) calls :
  0 < k -> 0 < m ->
  Forall (task_call k m) calls ->
  exists q : Q,
    (get_progress (deliver calls (init (k * m)))).1 = Return q /\
    (0 <= q <= 1)%Q.
Proof.
  intros Hk Hm Hcalls.
  set (s := deliver calls (init (k * m))).
  set (d := num_samples_completed_per_task s).
  assert (total_num_samples s = k * m) as Htotal by apply deliver_total.
  assert (forall t n, d !! t = Some n -> 0 <= t < k /\ 0 <= n <= m) as Hd.
  { intros t n Hlook. unfold d, s in Hlook. rewrite deliver_lookup in Hlook.
    by apply (last_report_task_call k m) in Hlook. }
  assert (0 <= sum (values d) <= k * m) as Hsum.
  { rewrite (sum_values_range (Z.to_nat k)), Z2Nat.id by
      (try lia; intros t [n Hn]; apply Hd in Hn; lia).
    pose proof (sum_bounds 0 m (map (recorded d) (range k))) as Hb.
    rewrite length_map in Hb. unfold range in Hb.
    rewrite length_seqZ, Z2Nat.id in Hb by lia.
    rewrite Z.mul_0_r in Hb. apply Hb, Forall_forall. intros x Hx.
    apply list_elem_of_In, in_map_iff in Hx as (t & <- & _).
    unfold recorded. destruct (d !! t) as [n|] eqn:Hn; simpl; [|lia].
    by apply Hd in Hn as [_ ?]. }
  destruct (true_div_bounded (sum (values d)) (k * m) 1)
    as (q & Hq & _ & Hbounds); [lia|lia|lia|].
  exists q. split; [|done].
  cbn. fold s. fold d. by rewrite Htotal.
Qed.

(** C10.  In a run with [k] tasks of [m] samples each (both positive),
    the actor being built with [total_num_samples = k * m]: once the
    mailbox the actor has worked through holds, for every task in
    [range(k)], the final call [report_progress(task_id, m)] as that
    task's last call, the recorded counts sum to [k * m], [get_progress]
    returns a value equal to 1, and the test [progress == 1] of the
    polling loop holds. *)
Theorem progress_is_one_when_all_reported (p : Sampling.params) calls :
  let k := Sampling.NUM_SAMPLING_TASKS p in
  let m := Sampling.NUM_SAMPLES_PER_TASK p in
  let a := deliver calls (Sampling.progress_actor p) in
  0 < k -> 0 < m ->
  Forall (fun c => 0 <= c.1 < k) calls ->
  (forall task_id, 0 <= task_id < k ->
                   last_report task_id calls None = Some m) ->
  sum (values (num_samples_completed_per_task a)) = total_num_samples a /\
  (exists q : Q, (get_progress a).1 = Return q /\ (q == 1)%Q) /\
  Sampling.poll a = Return true.
Proof.
  intros k m a Hk Hm Hcalls Hfinal.
  set (d := num_samples_completed_per_task a).
  assert (total_num_samples a = k * m) as Htotal by apply deliver_total.
  assert (forall t, d !! t = last_report t calls None) as Hlook.
  { intros t. unfold d, a. by rewrite deliver_lookup. }
  assert (sum (values d) = k * m) as Hsum.
  { rewrite (sum_values_range (Z.to_nat k)); [rewrite Z2Nat.id by lia|].
    - rewrite (map_ext_in _ (fun _ => m)).
      + rewrite sum_map_const. unfold range.
        rewrite length_seqZ, Z2Nat.id; lia.
      + intros t Hin. apply list_elem_of_In, elem_of_seqZ in Hin.
        unfold recorded. rewrite Hlook, Hfinal; [done|lia].
    - intros t [n Hn]. rewrite Hlook in Hn.
      apply last_report_elem in Hn as [?|Hin]; [done|].
      rewrite Forall_forall in Hcalls. apply Hcalls in Hin.
      cbn in Hin. lia. }
  destruct (true_div_same (k * m)) as (q & Hq & Hone); [lia|].
  assert ((get_progress a).1 = Return q) as Hget.
  { cbn. fold a. fold d. by rewrite Hsum, Htotal. }
  split; [by rewrite Htotal|]. split; [by eexists|].
  unfold Sampling.poll. rewrite Hget. f_equal. by apply Qeq_bool_iff.
Qed.

End ProgressRatio.

Section ProgressRatioInstances.
Import ProgressPIActor Progress.

Lemma progress_in_unit_interval_witness :
  exists q : Q,
    (get_progress (F := exact_float64)
       (deliver [(0, 2); (1, 3); (0, 3)] (init (2 * 3)))).1
    = Return q /\ (0 <= q <= 1)%Q.
Proof.
  apply (progress_in_unit_interval (F := exact_float64) 2 3
           [(0, 2); (1, 3); (0, 3)]);
    [lia | lia |].
  repeat constructor; cbn; lia.
Defined.

Lemma progress_is_one_when_all_reported_witness :
  let p := Sampling.Params 2 3 2 in
  let a := deliver [(0, 2); (1, 2); (1, 3); (0, 3)]
             (Sampling.progress_actor p) in
  sum (values (num_samples_completed_per_task a)) = total_num_samples a /\
  (exists q : Q, (get_progress (F := exact_float64) a).1 = Return q /\
                 (q == 1)%Q) /\
  Sampling.poll (F := exact_float64) a = Return true.
Proof.
  apply (progress_is_one_when_all_reported (F := exact_float64)
           (Sampling.Params 2 3 2)
           [(0, 2); (1, 2); (1, 3); (0, 3)]); cbn; [lia | lia | |].
  - repeat constructor; cbn; lia.
  - intros t Ht.
    assert (t = 0 \/ t = 1) as [-> | ->] by lia; reflexivity.
Defined.

End ProgressRatioInstances.

(** ** Loops and comprehensions *)

Lemma for_in_app {A S : Type} (xs ys : list A) (body : A -> S -> outcome S)
    (s : S) :
  for_in (xs ++ ys) body s
  = match for_in xs body s with
    | Return s' => for_in ys body s'
    | Raise e => Raise e
    end.
Proof.
  revert s. induction xs as [|x xs IH]; intros s; cbn; [done|].
  destruct (body x s); [apply IH|done].
Qed.

Lemma mapM_Return {A B : Type} (f : A -> outcome B) (g : A -> B)
    (xs : list A) :
  (forall x, x ∈ xs -> f x = Return (g x)) ->
  mapM f xs = Return (map g xs).
Proof.
  induction xs as [|x xs IH]; intros Hf; [done|].
  cbn. rewrite (Hf x) by apply list_elem_of_here. cbn.
  rewrite IH; [done|]. intros y Hy. by apply Hf, list_elem_of_further.
Qed.

Lemma range_of_nat (n : Z) : range n = range (Z.of_nat (Z.to_nat n)).
Proof. unfold range, seqZ. by rewrite Nat2Z.id. Qed.

(** ** The sampling task and the estimate of pi *)

Section SamplingFacts.
Import ProgressPIActor Progress Sampling.
Context {L : Libm}.
Implicit Types (uniform : nat -> float) (l : locals).

(** The loop of [sampling_task] after [j] iterations. *)
Lemma sampling_loop uniform task_id frequency_report (j : nat) :
  frequency_report <> 0 ->
  exists l,
    for_in (range (Z.of_nat j)) (loop_body uniform task_id frequency_report)
           {| num_inside := 0; drawn := 0%nat; sent := [] |} = Return l /\
    num_inside l = inside_count uniform (Z.of_nat j) /\
    drawn l = (2 * j)%nat /\
    Forall (fun c => c.1 = task_id /\ 1 <= c.2 <= Z.of_nat j) (sent l).
Proof.
  intros Hfreq. induction j as [|j (l & Hrun & Hin & Hdrawn & Hsent)].
  - eexists. split; [reflexivity|]. by repeat split.
  - unfold range in *. rewrite seqZ_S, for_in_app, Hrun. cbn [for_in].
    unfold loop_body, mod_. destruct (Z.eqb_spec frequency_report 0); [done|].
    eexists. split; [reflexivity|]. cbn [num_inside drawn sent].
    split; [|split; [lia|]].
    + unfold inside_count in *. rewrite !Nat2Z.id in *.
      rewrite seq_S, filter_app, length_app, Nat2Z.inj_add, <- Hin.
      rewrite Hdrawn. cbn [Nat.add filter list_filter].
      replace (S (2 * j)) with (2 * j + 1)%nat by lia.
      destruct (le_int _ 1) eqn:Hle.
      * rewrite decide_True by done. reflexivity.
      * rewrite decide_False by (by intros ?). cbn. lia.
    + assert (Forall (fun c : call => c.1 = task_id /\
                                       1 <= c.2 <= Z.of_nat (S j)) (sent l))
        as Hsent'.
      { eapply Forall_impl; [exact Hsent|]. intros c [? ?]. split; [done|lia]. }
      destruct (_ =? 0); [|done].
      apply Forall_app. split; [done|]. constructor; [|done]. cbn. lia.
Qed.

(** [sampling_task] raises nothing when [frequency_report] is not [0],
    returns the number of its sampled points inside the circle, which
    lies between [0] and [num_samples], and sends to the actor only calls
    for its own task with counts up to [num_samples], the last of which
    is the final report [(task_id, num_samples)]. *)
Lemma sampling_task_returns uniform num_samples task_id frequency_report :
  frequency_report <> 0 ->
  exists calls,
    sampling_task uniform num_samples task_id frequency_report
    = Return (inside_count uniform num_samples,
              calls ++ [(task_id, num_samples)]) /\
    Forall (fun c => c.1 = task_id /\ 1 <= c.2 <= num_samples) calls /\
    0 <= inside_count uniform num_samples <= Z.max 0 num_samples.
Proof.
  intros Hfreq. unfold sampling_task. rewrite range_of_nat.
  destruct (sampling_loop uniform task_id frequency_report
              (Z.to_nat num_samples) Hfreq) as (l & -> & Hin & _ & Hsent).
  exists (sent l). split; [|split].
  - rewrite Hin. unfold inside_count. by rewrite Nat2Z.id.
  - eapply Forall_impl; [exact Hsent|]. intros c [? ?]. split; [done|lia].
  - unfold inside_count.
    pose proof (length_filter
                  (fun i => le_int (hypot (uniform (2 * i)%nat)
                                          (uniform (2 * i + 1)%nat)) 1 = true)
                  (seq 0 (Z.to_nat num_samples))) as Hlen.
    rewrite length_seq in Hlen. lia.
Qed.

(** X7.  A zero [frequency_report] makes the first iteration raise. *)
Lemma sampling_task_zero_frequency uniform num_samples task_id :
  0 < num_samples ->
  sampling_task uniform num_samples task_id 0 = Raise ZeroDivisionError.
Proof.
  intros Hpos. unfold sampling_task. rewrite range_of_nat.
  destruct (Z.to_nat num_samples) as [|n] eqn:Hn; [lia|].
  unfold range, seqZ. rewrite Nat2Z.id. reflexivity.
Qed.

(** The calls a task of the notebook's run sends are calls of that run,
    and the last one carries [NUM_SAMPLES_PER_TASK]. *)
Lemma driver_task_calls (p : params) uniform (i : Z) :
  0 <= i < NUM_SAMPLING_TASKS p -> 0 < NUM_SAMPLES_PER_TASK p ->
  SAMPLE_REPORT_FREQUENCY p <> 0 ->
  exists n calls,
    sampling_task uniform (NUM_SAMPLES_PER_TASK p) i
                  (SAMPLE_REPORT_FREQUENCY p) = Return (n, calls) /\
    Forall (task_call (NUM_SAMPLING_TASKS p) (NUM_SAMPLES_PER_TASK p))
           calls /\
    last_report i calls None = Some (NUM_SAMPLES_PER_TASK p).
Proof.
  intros Hi Hm Hfreq.
  destruct (sampling_task_returns uniform (NUM_SAMPLES_PER_TASK p) i
              (SAMPLE_REPORT_FREQUENCY p) Hfreq) as (calls & -> & Hcalls & _).
  eexists _, _. split; [reflexivity|]. split.
  - apply Forall_app. split.
    + eapply Forall_impl; [exact Hcalls|]. intros c [Hc ?].
      unfold task_call. rewrite Hc. lia.
    + repeat constructor; cbn; lia.
  - rewrite last_report_app. cbn. by rewrite Z.eqb_refl.
Qed.

End SamplingFacts.

Section PiEstimate.
Import ProgressPIActor Progress Sampling.
Context {L : Libm} {F : Float64}.

(** C6.  With a positive number of tasks, a positive number of samples
    per task and a report frequency other than [0] (the notebook has
    [os.cpu_count()], 10_000_000 and 1_000_000): every sampling task
    returns the count of its [NUM_SAMPLES_PER_TASK] sampled points
    [(x, y)] with [hypot(x, y) <= 1], a value in [0,
    NUM_SAMPLES_PER_TASK]; [total_num_inside] is the sum of these
    returned values; [pi] is [(total_num_inside * 4) /
    TOTAL_NUM_SAMPLES], the quotient rounded to a float, and lies in
    [0, 4]. *)
Theorem pi_estimate (p : params) (uniform : Z -> nat -> float) :
  let k := NUM_SAMPLING_TASKS p in
  let m := NUM_SAMPLES_PER_TASK p in
  let counts := map (fun i => inside_count (uniform i) m) (range k) in
  0 < k -> 0 < m -> SAMPLE_REPORT_FREQUENCY p <> 0 ->
  ray_get_results p uniform = Return counts /\
  Forall (fun n => 0 <= n <= m) counts /\
  total_num_inside p uniform = Return (sum counts) /\
  exists estimate : Q,
    pi p uniform = Return estimate /\
    estimate
    = fl (inject_Z (sum counts * 4) / inject_Z (TOTAL_NUM_SAMPLES p)) /\
    (0 <= estimate <= 4)%Q.
Proof.
  intros k m counts Hk Hm Hfreq.
  assert (ray_get_results p uniform = Return counts) as Hget.
  { unfold ray_get_results, results, counts.
    rewrite (mapM_Return _ (fun r => match r with
                                     | Return (n, _) => n
                                     | Raise _ => 0
                                     end)).
    - f_equal. rewrite map_map. apply map_ext. intros i.
      destruct (sampling_task_returns (uniform i) m i
                  (SAMPLE_REPORT_FREQUENCY p) Hfreq) as (calls & Hret & _).
      fold m. by rewrite Hret.
    - intros r Hr. apply list_elem_of_In, in_map_iff in Hr as (i & <- & _).
      destruct (sampling_task_returns (uniform i) m i
                  (SAMPLE_REPORT_FREQUENCY p) Hfreq) as (calls & Hret & _).
      fold m. by rewrite Hret. }
  assert (Forall (fun n => 0 <= n <= m) counts) as Hcounts.
  { apply Forall_forall. intros n Hn.
    apply list_elem_of_In, in_map_iff in Hn as (i & <- & _).
    destruct (sampling_task_returns (uniform i) m i
                (SAMPLE_REPORT_FREQUENCY p) Hfreq) as (_ & _ & _ & Hb).
    lia. }
  assert (total_num_inside p uniform = Return (sum counts)) as Htot.
  { unfold total_num_inside. by rewrite Hget. }
  assert (TOTAL_NUM_SAMPLES p = k * m) as Htotal by reflexivity.
  assert (0 <= sum counts * 4 <= 4 * (k * m)) as Hsum.
  { pose proof (sum_bounds 0 m counts Hcounts) as Hb.
    assert (Z.of_nat (length counts) = k) as Hlen.
    { unfold counts, range. rewrite length_map, length_seqZ. lia. }
    rewrite Hlen in Hb. lia. }
  destruct (true_div_bounded (sum counts * 4) (TOTAL_NUM_SAMPLES p) 4)
    as (estimate & Hdiv & Hval & Hbounds); [lia|lia|lia|].
  repeat split; try done.
  exists estimate. unfold pi. by rewrite Htot.
Qed.

End PiEstimate.

Lemma pi_estimate_witness :
  let p := Sampling.Params 2 3 2 in
  let counts :=
    map (fun i => Progress.inside_count (L := exact_libm) (test_uniform i) 3)
        (range 2) in
  Sampling.ray_get_results (L := exact_libm) p test_uniform = Return counts /\
  Forall (fun n => 0 <= n <= 3) counts /\
  Sampling.total_num_inside (L := exact_libm) p test_uniform
  = Return (sum counts) /\
  exists estimate : Q,
    Sampling.pi (L := exact_libm) (F := exact_float64) p test_uniform
    = Return estimate /\
    estimate = (inject_Z (sum counts * 4) / inject_Z 6)%Q /\
    (0 <= estimate <= 4)%Q.
Proof.
  apply (pi_estimate (L := exact_libm) (F := exact_float64)
           (Sampling.Params 2 3 2) test_uniform);
    cbn; lia.
Defined.

Example sampling_task_run :
  Sampling.sampling_task (L := exact_libm) (test_uniform 0) 4 7 2
  = Return (2, [(7, 2); (7, 4); (7, 4)]).
Proof. vm_compute. reflexivity. Qed.

Example notebook_total_num_samples :
  Sampling.TOTAL_NUM_SAMPLES (Sampling.notebook_params 8) = 80000000.
Proof. reflexivity. Qed.

Example pi_run :
  Sampling.pi (L := exact_libm) (F := exact_float64)
              (Sampling.Params 2 3 2) test_uniform
  = Return ((4 * 4) # 6).
Proof. vm_compute. reflexivity. Qed.

(** ** The model factory and the supervisor *)

Lemma in__spec (x : string) (xs : list string) : in_ x xs = true <-> x ∈ xs.
Proof.
  unfold in_. rewrite existsb_exists. split.
  - intros (y & Hy & Heq). apply String.eqb_eq in Heq as ->.
    by apply list_elem_of_In.
  - intros Hx. exists x. split; [by apply list_elem_of_In|apply String.eqb_refl].
Qed.

Lemma contains_prefix (s t : string) : Results.contains s (s ++ t).
Proof. exists ""%string, t. reflexivity. Qed.

Lemma string_app_assoc (s t u : string) :
  (s ++ t ++ u = (s ++ t) ++ u)%string.
Proof.
  induction s as [|c s IH]; [done|].
  change (String c (s ++ t ++ u) = String c ((s ++ t) ++ u))%string.
  by f_equal.
Qed.

Lemma contains_suffix (s t u : string) :
  Results.contains u t -> Results.contains u (s ++ t).
Proof.
  intros (pre & post & ->). exists (s ++ pre)%string, post.
  apply string_app_assoc.
Qed.

Section FactoryClaims.
Import ActorTree ActorTree.ModelFactory Results.
Context {U : ModelHelperUtils}.

(** C1.  [create_model(model_name)] raises if and only if [model_name] is
    not one of [MODEL_TYPES]; what it raises is an [Exception] whose
    message contains the model name and "not supported".  For
    "random_forest", "decision_tree" and "xgboost" it raises nothing and
    returns a handle of [RFRActor], [DTActor] and [XGBoostActor], made
    with the configuration of that model. *)
Theorem create_model_raises_iff_unsupported (model_name : string) :
  MODEL_TYPES = ["random_forest"; "decision_tree"; "xgboost"]%string /\
  ((exists e, create_model model_name = Raise e)
   <-> model_name ∉ MODEL_TYPES) /\
  (((model_name ∉ MODEL_TYPES) /\
    exists msg, create_model model_name = Raise (Exception msg) /\
                contains model_name msg /\ contains "not supported" msg)
   \/ ((model_name ∈ MODEL_TYPES) /\
       exists handle, create_model model_name = Return handle)) /\
  create_model "random_forest"
  = Return (remote RFRActor RANDOM_FOREST_CONFIGS) /\
  create_model "decision_tree"
  = Return (remote DTActor DECISION_TREE_CONFIGS) /\
  create_model "xgboost" = Return (remote XGBoostActor XGBOOST_CONFIGS).
Proof.
  split; [reflexivity|].
  assert (model_name ∈ MODEL_TYPES ->
          exists handle, create_model model_name = Return handle) as Hin.
  { intros Hin. unfold create_model.
    apply in__spec in Hin as ->. cbn [negb].
    repeat (destruct (String.eqb model_name _); [by eexists|]).
    by eexists. }
  assert (model_name ∉ MODEL_TYPES ->
          create_model model_name
          = Raise (Exception (model_name ++ " not supported"))) as Hout.
  { intros Hout. unfold create_model.
    destruct (in_ model_name MODEL_TYPES) eqn:Hmem; [|done].
    by apply in__spec in Hmem. }
  split; [|split; [|by repeat split]].
  - split.
    + intros [e He] Hmem. apply Hin in Hmem as [handle Hh]. congruence.
    + intros Hmem. rewrite Hout by done. by eexists.
  - destruct (decide (model_name ∈ MODEL_TYPES)) as [Hmem|Hmem].
    + right. by split; [|apply Hin].
    + left. split; [done|]. eexists. split; [by apply Hout|]. split.
      * apply contains_prefix.
      * apply contains_suffix. exists " "%string, ""%string. reflexivity.
Qed.

(** C4.  [Supervisor.__init__] creates exactly one worker per name of
    [MODEL_TYPES], in that order: three workers, for "random_forest",
    "decision_tree" and "xgboost".  [Supervisor.work] returns the list of
    the three workers' [train_and_evaluate_model] results, one per
    worker, in the same order. *)
Theorem supervisor_one_worker_per_model :
  exists supervisor,
    Supervisor.init = Return supervisor /\
    Supervisor.worker_models supervisor
    = [remote RFRActor RANDOM_FOREST_CONFIGS;
       remote DTActor DECISION_TREE_CONFIGS;
       remote XGBoostActor XGBOOST_CONFIGS] /\
    Forall2 (fun name worker => create_model name = Return worker)
            MODEL_TYPES (Supervisor.worker_models supervisor) /\
    Supervisor.work supervisor
    = [train_and_evaluate_model (remote RFRActor RANDOM_FOREST_CONFIGS);
       train_and_evaluate_model (remote DTActor DECISION_TREE_CONFIGS);
       train_and_evaluate_model (remote XGBoostActor XGBOOST_CONFIGS)] /\
    Forall2 (fun worker result => result = train_and_evaluate_model worker)
            (Supervisor.worker_models supervisor)
            (Supervisor.work supervisor) /\
    values = Return (Supervisor.work supervisor).
Proof.
  eexists. split; [reflexivity|]. cbn.
  repeat split; repeat constructor.
Qed.

End FactoryClaims.

(** C5.  With the training routine as the spec describes it, every record
    of the list [Supervisor.work] returns, for any supervisor, has the
    keys 'name', 'mse', 'time' and 'state'; so the reads [value["state"]]
    and [itemgetter('mse')] of the driver cells raise nothing on the three
    records of [values]. *)
Theorem work_records_have_keys (rf dt xgb : dict)
    (measured : ActorTree.ActorHandle -> string * Q * Q * string)
    (supervisor : ActorTree.Supervisor.self) :
  let utils := Results.spec_helper_utils rf dt xgb measured in
  Forall Results.has_result_keys
         (ActorTree.Supervisor.work (U := utils) supervisor) /\
  exists records,
    ActorTree.values (U := utils) = Return records /\
    length records = 3%nat /\
    Forall Results.has_result_keys records /\
    Forall (fun r => exists st mse, getitem r "state" = Return st /\
                                    itemgetter "mse" r = Return mse) records.
Proof.
  intros utils.
  assert (forall worker,
            Results.has_result_keys
              (Results.train_and_evaluate_model_spec measured worker) /\
            exists st mse,
              getitem (Results.train_and_evaluate_model_spec measured worker)
                      "state" = Return st /\
              itemgetter "mse"
                (Results.train_and_evaluate_model_spec measured worker)
              = Return mse) as Hrecord.
  { intros worker. unfold Results.train_and_evaluate_model_spec.
    destruct (measured worker) as [[[name mse] time] state]. split.
    - repeat constructor; by eexists.
    - by exists (VStr state), (VFloat mse). }
  split.
  - unfold ActorTree.Supervisor.work. apply Forall_forall. intros r Hr.
    apply list_elem_of_In, in_map_iff in Hr as (worker & <- & _).
    apply Hrecord.
  - eexists. split; [reflexivity|]. split; [reflexivity|].
    split.
    + repeat (apply List.Forall_cons; [apply (proj1 (Hrecord _))|]).
      apply List.Forall_nil.
    + repeat (apply List.Forall_cons; [apply (proj2 (Hrecord _))|]).
      apply List.Forall_nil.
Qed.

Example recorded_values_have_keys :
  Forall Results.has_result_keys ActorTree.recorded_values.
Proof. repeat constructor; by eexists. Qed.

(** ** Sorting *)

Lemma value_lt_numbers (a b : value) (x y : Q) :
  as_number a = Some x -> as_number b = Some y ->
  value_lt a b = Return (negb (Qle_bool y x)).
Proof.
  intros Ha Hb. destruct a, b; cbn in *; by simplify_eq.
Qed.

Lemma Sorted_weaken {A : Type} (R1 R2 : A -> A -> Prop) (P : A -> Prop)
    (l : list A) :
  (forall a b, P a -> P b -> R1 a b -> R2 a b) ->
  Forall P l -> Sorted R1 l -> Sorted R2 l.
Proof.
  intros HR HP Hsorted. induction Hsorted as [|a l _ IH Hhd]; [constructor|].
  apply Forall_cons in HP as [Ha Hl]. constructor; [by apply IH|].
  destruct Hhd as [|b l Hab]; constructor.
  apply Forall_cons in Hl as [Hb _]. by apply HR.
Qed.

Section SortedFacts.
Context {A : Type} (num : A -> Q).
Implicit Types (l : list (value * A)) (xs : list A).

Local Abbreviation keyed := (Results.keyed num).
Local Abbreviation le := (Results.key_le num).

Lemma insert_by_sorted (kx : value) (x : A) l :
  keyed (kx, x) -> Forall keyed l -> Sorted le l ->
  exists l',
    insert_by kx x l = Return l' /\
    (kx, x) :: l ≡ₚ l' /\
    Forall keyed l' /\
    Sorted le l' /\
    forall p, le p (kx, x) -> HdRel le p l -> HdRel le p l'.
Proof.
  intros Hx Hl Hsorted.
  induction l as [|[ky y] l IH]; cbn [insert_by].
  - eexists. split; [reflexivity|]. repeat split; auto.
  - apply Forall_cons in Hl as [Hy Hl].
    apply Sorted_inv in Hsorted as [Hsorted Hhd].
    rewrite (value_lt_numbers ky kx (num y) (num x)) by done.
    destruct (Qle_bool (num x) (num y)) eqn:Hle; cbn [negb].
    + apply Qle_bool_iff in Hle.
      eexists. split; [reflexivity|]. repeat split; auto.
    + destruct (IH Hl Hsorted) as (r & -> & Hperm & Hr & Hsr & Hhdr).
      assert (le (ky, y) (kx, x)) as Hyx.
      { unfold Results.key_le. cbn. apply Qlt_le_weak, Qnot_le_lt. intros Hxy.
        apply Qle_bool_iff in Hxy. congruence. }
      eexists. split; [reflexivity|]. repeat split.
      * rewrite <- Hperm. apply perm_swap.
      * by apply Forall_cons.
      * constructor; [done|]. by apply Hhdr.
      * intros p _ Hp. apply HdRel_inv in Hp. by constructor.
Qed.

Lemma sort_decorated_sorted l :
  Forall keyed l ->
  exists l',
    sort_decorated l = Return l' /\ l ≡ₚ l' /\ Forall keyed l' /\
    Sorted le l'.
Proof.
  induction l as [|[kx x] l IH]; intros Hl; cbn [sort_decorated].
  - eexists. by repeat split.
  - apply Forall_cons in Hl as [Hx Hl].
    destruct (IH Hl) as (s & -> & Hperm & Hs & Hsorted).
    destruct (insert_by_sorted kx x s Hx Hs Hsorted)
      as (s' & -> & Hperm' & Hs' & Hsorted' & _).
    eexists. split; [reflexivity|]. repeat split; [|done|done].
    by rewrite <- Hperm', Hperm.
Qed.

(** [sorted] on elements whose key is a number: it raises nothing and
    returns a permutation of its input, in ascending order of the keys. *)
Lemma sorted_numeric xs (key : A -> outcome value) :
  Forall (fun x => exists v, key x = Return v /\
                             as_number v = Some (num x)) xs ->
  exists s,
    sorted xs key = Return s /\ xs ≡ₚ s /\
    Sorted (fun a b => (num a <= num b)%Q) s.
Proof.
  intros Hkeys.
  assert (exists d,
            mapM (fun x => match key x with
                           | Return k => Return (k, x)
                           | Raise e => Raise e
                           end) xs = Return d /\
            map snd d = xs /\ Forall keyed d) as (d & Hd & Hsnd & Hkeyed).
  { induction Hkeys as [|x xs (v & Hv & Hnum) _ (d & Hd & Hsnd & Hkeyed)].
    - by exists [].
    - exists ((v, x) :: d). cbn. rewrite Hv. cbn. rewrite Hd. cbn.
      repeat split; [by rewrite Hsnd|]. by apply Forall_cons. }
  destruct (sort_decorated_sorted d Hkeyed) as (s & Hs & Hperm & _ & Hsorted).
  exists (map snd s). unfold sorted. rewrite Hd, Hs. repeat split.
  - rewrite <- Hsnd. by apply Permutation_map.
  - clear -Hsorted. induction Hsorted as [|p s _ IH Hhd]; [constructor|].
    cbn. constructor; [done|]. destruct Hhd; by constructor.
Qed.

End SortedFacts.

Section PresentationClaims.
Import ActorTree Results.

(** C7.  On a results list whose records have a numeric 'mse',
    [sorted(values, key=itemgetter('mse'))] raises nothing, and
    [sorted_by_mse] is a permutation of [values] in which each record's
    'mse' is less than or equal to the next record's 'mse'. *)
Theorem sorted_by_mse_ascending (values : list dict) :
  Forall (fun r => is_Some (mse_of r)) values ->
  exists sorted_values,
    sorted_by_mse values = Return sorted_values /\
    values ≡ₚ sorted_values /\
    Sorted mse_le sorted_values.
Proof.
  intros Hmse.
  destruct (sorted_numeric (fun r => default 0%Q (mse_of r)) values
              (itemgetter "mse")) as (s & Hs & Hperm & Hsorted).
  { eapply Forall_impl; [exact Hmse|]. intros r [x Hx].
    unfold mse_of in *. unfold itemgetter, getitem.
    destruct (r !! "mse"%string) as [v|]; [|done].
    exists v. by rewrite Hx. }
  exists s. repeat split; [done|done|].
  eapply (Sorted_weaken _ mse_le (fun r => is_Some (mse_of r)) s);
    [|by rewrite <- Hperm|exact Hsorted].
  intros a b [x Hx] [y Hy] Hle. exists x, y. by rewrite Hx, Hy in Hle.
Qed.

Lemma sorted_by_mse_ascending_witness :
  exists sorted_values,
    sorted_by_mse recorded_values = Return sorted_values /\
    recorded_values ≡ₚ sorted_values /\
    Sorted mse_le sorted_values.
Proof.
  apply (sorted_by_mse_ascending recorded_values).
  repeat constructor; by eexists.
Defined.

(** The saved output of the notebook: xgboost, random_forest,
    decision_tree. *)
Example sorted_by_mse_recorded :
  sorted_by_mse recorded_values
  = Return [recorded_xgboost; recorded_random_forest;
            recorded_decision_tree].
Proof. vm_compute. reflexivity. Qed.

End PresentationClaims.

(** ** The loop that waits for the models *)

Section WaitLoop.
Import ActorTree Results.
Implicit Types (values : list dict) (states : list value).

(** The inner [for] appends the state of every record, in order. *)
Lemma collect_states values states :
  Forall (fun r => is_Some (r !! "state"%string)) values ->
  for_in values
    (fun value states =>
       match getitem value "state" with
       | Return st => Return (states ++ [st])
       | Raise e => Raise e
       end) states
  = Return (states ++ omap (fun r : dict => r !! "state"%string) values).
Proof.
  intros Hkeys. revert states.
  induction Hkeys as [|r values [st Hst] _ IH]; intros states.
  - cbn. by rewrite app_nil_r.
  - cbn. unfold getitem. rewrite Hst, IH. by rewrite <- app_assoc.
Qed.

Lemma all_done_states values :
  Forall (fun r => is_Some (r !! "state"%string)) values ->
  forallb (fun e => value_eq (VStr "DONE") e)
          (omap (fun r : dict => r !! "state"%string) values)
  = all_done values.
Proof.
  induction 1 as [|r values [st Hst] _ IH]; [done|].
  unfold all_done in *. cbn [omap list_omap forallb].
  unfold is_done at 1. rewrite Hst. cbn [forallb]. by rewrite IH.
Qed.

Lemma wait_body_states values states :
  Forall (fun r => is_Some (r !! "state"%string)) values ->
  wait_body values states
  = Return (forallb (fun e => value_eq (VStr "DONE") e) states
            && all_done values,
            states ++ omap (fun r : dict => r !! "state"%string) values).
Proof.
  intros Hkeys. unfold wait_body. rewrite collect_states by done.
  by rewrite forallb_app, (all_done_states values Hkeys).
Qed.

(** X12.  A record without a 'state' key ends the loop with a [KeyError]. *)
Lemma wait_loop_key_error fuel values states :
  Exists (fun r => r !! "state"%string = None) values ->
  wait_loop (S fuel) values states = Some (Raise (KeyError "state")).
Proof.
  intros Hmissing. cbn [wait_loop].
  assert (wait_body values states = Raise (KeyError "state")) as ->; [|done].
  unfold wait_body.
  assert (for_in values
            (fun value states =>
               match getitem value "state" with
               | Return st => Return (states ++ [st])
               | Raise e => Raise e
               end) states = Raise (KeyError "state")) as ->; [|done].
  revert states. induction Hmissing as [r values Hr|r values _ IH];
    intros states; cbn; unfold getitem.
  - by rewrite Hr.
  - destruct (r !! "state"%string); [apply IH|done].
Qed.

(** C9.  On records that all have a 'state' key, the loop terminates if
    and only if every record of [values] has 'state' equal to 'DONE' at
    entry.  In that case it leaves through [break] in the first pass.
    Otherwise it is still running after any number of passes, [states]
    holding that many copies of the same state values: nothing the exit
    test reads changes inside the loop. *)
Theorem wait_loop_terminates_iff_all_done values :
  Forall (fun r => is_Some (r !! "state"%string)) values ->
  let copies := omap (fun r : dict => r !! "state"%string) values in
  ((exists fuel result, wait_loop fuel values [] = Some result)
   <-> all_done values = true) /\
  (all_done values = true ->
   wait_loop 1 values [] = Some (Return copies)) /\
  (all_done values = false ->
   forall fuel,
     wait_loop fuel values [] = None /\
     states_after fuel values [] = Some (mjoin (replicate fuel copies))).
Proof.
  intros Hkeys copies.
  assert (all_done values = true ->
          wait_loop 1 values [] = Some (Return copies)) as Hdone.
  { intros Hall. cbn [wait_loop]. rewrite wait_body_states by done.
    by rewrite Hall. }
  assert (all_done values = false ->
          forall fuel states,
            wait_loop fuel values states = None /\
            states_after fuel values states
            = Some (states ++ mjoin (replicate fuel copies))) as Hloop.
  { intros Hall fuel. induction fuel as [|fuel IH]; intros states.
    - cbn. by rewrite app_nil_r.
    - cbn [wait_loop states_after]. rewrite wait_body_states by done.
      rewrite Hall, andb_false_r. cbv beta iota.
      destruct (IH (states ++ copies)) as [Hrun Hstates].
      unfold copies in Hrun, Hstates. rewrite Hrun, Hstates.
      split; [done|]. cbn. by rewrite <- app_assoc. }
  split; [|split; [done|]].
  - split.
    + intros (fuel & result & Hrun).
      destruct (all_done values) eqn:Hall; [done|].
      destruct (Hloop eq_refl fuel []) as [Hnone _]. congruence.
    + intros Hall. exists 1%nat, (Return copies). by apply Hdone.
  - intros Hall fuel. apply (Hloop Hall fuel []).
Qed.

Lemma wait_loop_terminates_iff_all_done_witness :
  ((exists fuel result, wait_loop fuel recorded_values [] = Some result)
   <-> all_done recorded_values = true) /\
  (all_done recorded_values = true ->
   wait_loop 1 recorded_values []
   = Some (Return [VStr "DONE"; VStr "DONE"; VStr "DONE"])) /\
  (all_done recorded_values = false ->
   forall fuel,
     wait_loop fuel recorded_values [] = None /\
     states_after fuel recorded_values []
     = Some (mjoin (replicate fuel
                      [VStr "DONE"; VStr "DONE"; VStr "DONE"]))).
Proof.
  apply (wait_loop_terminates_iff_all_done recorded_values).
  repeat constructor; by eexists.
Defined.

Example wait_loop_recorded :
  wait_loop 1 recorded_values []
  = Some (Return [VStr "DONE"; VStr "DONE"; VStr "DONE"]).
Proof. vm_compute. reflexivity. Qed.

(** A worker still in state 'RUNNING' keeps the loop going. *)
Example wait_loop_running :
  wait_loop 50 [recorded_xgboost;
                <["state" := VStr "RUNNING"]> recorded_decision_tree] []
  = None.
Proof. vm_compute. reflexivity. Qed.

End WaitLoop.

(** * Part III: further properties of the code *)

(** ** The progress actor *)

Section ActorMore.
Import ProgressPIActor Progress.
Context {F : Float64}.
Implicit Types (d : gmap Z Z) (s : self) (calls : list call).

(** X1.  The state the actor reaches depends only on the last call each task
    made: two mailboxes that agree on every task's last count leave the
    same state.  So a repeated report changes nothing, a later report for a
    task overrides an earlier one, and reports of different tasks
    commute. *)
Theorem deliver_last_reports calls1 calls2 s :
  (forall task_id, last_report task_id calls1 None
                   = last_report task_id calls2 None) ->
  deliver calls1 s = deliver calls2 s.
Proof.
  intros Hlast.
  assert (forall calls t acc,
            last_report t calls acc
            = match last_report t calls None with
              | Some n => Some n
              | None => acc
              end) as Hacc.
  { induction calls as [|c calls IH]; intros t acc; [done|].
    cbn [last_report].
    rewrite (IH t (if c.1 =? t then Some c.2 else acc)),
            (IH t (if c.1 =? t then Some c.2 else None)).
    destruct (last_report t calls None); [done|]. by destruct (c.1 =? t). }
  destruct (deliver calls1 s) as [total1 d1] eqn:H1.
  destruct (deliver calls2 s) as [total2 d2] eqn:H2.
  f_equal.
  - change total1 with (total_num_samples (Self total1 d1)).
    change total2 with (total_num_samples (Self total2 d2)).
    by rewrite <- H1, <- H2, !deliver_total.
  - apply map_eq. intros t.
    change d1 with (num_samples_completed_per_task (Self total1 d1)).
    change d2 with (num_samples_completed_per_task (Self total2 d2)).
    rewrite <- H1, <- H2, !deliver_lookup.
    rewrite (Hacc calls1), (Hacc calls2). by rewrite Hlast.
Qed.

(** X2.  With [total_num_samples = 0], [get_progress] raises
    [ZeroDivisionError] whatever was reported, and leaves the actor as it
    was. *)
Theorem get_progress_zero_total calls :
  get_progress (deliver calls (init 0))
  = (Raise ZeroDivisionError, deliver calls (init 0)).
Proof.
  unfold get_progress. by rewrite deliver_total.
Qed.

(** X3.  Before any report, an actor with a total other than [0] reports the
    progress [0.0]. *)
Theorem get_progress_fresh total :
  total <> 0 ->
  exists q : Q, (get_progress (init total)).1 = Return q /\ (q == 0)%Q.
Proof.
  intros Htotal.
  assert (inject_Z 0 / inject_Z total == inject_Z 0)%Q as Hzero
    by (unfold Qdiv; apply Qmult_0_l).
  exists (fl (inject_Z 0 / inject_Z total)). split.
  - cbn. rewrite values_empty, sum_nil. unfold true_div.
    destruct (Z.eqb_spec total 0); [done|]. cbv zeta.
    rewrite finite_range; [done|]. rewrite Hzero. by vm_compute.
  - rewrite (fl_proper _ _ Hzero). by apply (fl_integer 0).
Qed.

(** X4.  With a positive total, a report that does not lower the count recorded
    for its task does not lower the progress. *)
Theorem report_progress_monotone s task_id n (before after : Q) :
  0 < total_num_samples s ->
  recorded (num_samples_completed_per_task s) task_id <= n ->
  (get_progress s).1 = Return before ->
  (get_progress (report_progress task_id n s).2).1 = Return after ->
  (before <= after)%Q.
Proof.
  intros Htotal Hn Hbefore Hafter. cbn in Hbefore, Hafter.
  rewrite sum_values_insert in Hafter. unfold true_div in *.
  destruct (Z.eqb_spec (total_num_samples s) 0); [lia|]. cbv zeta in *.
  destruct (overflows _) in Hbefore; [done|].
  destruct (overflows _) in Hafter; [done|].
  simplify_eq. apply fl_monotone.
  unfold Qdiv. apply Qmult_le_compat_r.
  - rewrite <- Zle_Qle. lia.
  - apply Qinv_le_0_compat. change 0%Q with (inject_Z 0).
    rewrite <- Zle_Qle. lia.
Qed.

End ActorMore.

(** ** The sampling task *)

Lemma div_succ_multiple (j a : Z) :
  0 < a -> (j + 1) mod a = 0 ->
  (j + 1) / a = j / a + 1 /\ (j / a + 1) * a = j + 1.
Proof.
  intros Ha Hmod.
  pose proof (Z.div_mod (j + 1) a ltac:(lia)) as Hdm. rewrite Hmod in Hdm.
  assert ((j + 1) / a - 1 = j / a) as Hq.
  { apply (Z.div_unique j a _ (a - 1)); lia. }
  lia.
Qed.

Lemma div_succ_other (j a : Z) :
  0 < a -> (j + 1) mod a <> 0 -> (j + 1) / a = j / a.
Proof.
  intros Ha Hmod.
  pose proof (Z.div_mod (j + 1) a ltac:(lia)) as Hdm.
  pose proof (Z.mod_pos_bound (j + 1) a Ha) as Hbound.
  apply (Z.div_unique j a _ ((j + 1) mod a - 1)); lia.
Qed.

Section SamplingMore.
Import ProgressPIActor Progress Sampling.
Context {L : Libm}.
Implicit Types (uniform : nat -> float) (l : locals).

(** When and what the loop reports: after [j] iterations the calls sent
    carry the multiples of the magnitude of [frequency_report] up to [j],
    in increasing order. *)
Lemma sampling_loop_reports uniform task_id frequency_report (j : nat) :
  frequency_report <> 0 ->
  exists l,
    for_in (range (Z.of_nat j)) (loop_body uniform task_id frequency_report)
           {| num_inside := 0; drawn := 0%nat; sent := [] |} = Return l /\
    sent l = map (fun q => (task_id, q * Z.abs frequency_report))
                 (seqZ 1 (Z.of_nat j / Z.abs frequency_report)).
Proof.
  intros Hfreq.
  assert (0 < Z.abs frequency_report) as Ha by (by apply Z.abs_pos).
  set (a := Z.abs frequency_report) in *.
  induction j as [|j (l & Hrun & Hsent)].
  - eexists. split; [reflexivity|]. by rewrite Z.div_0_l by lia.
  - unfold range in *. rewrite seqZ_S, for_in_app, Hrun. cbn [for_in].
    unfold loop_body, mod_. destruct (Z.eqb_spec frequency_report 0); [done|].
    eexists. split; [reflexivity|]. cbn [sent]. rewrite Z.add_0_l.
    assert ((Z.of_nat j + 1) mod frequency_report = 0
            <-> (Z.of_nat j + 1) mod a = 0) as Hmod.
    { rewrite !Z.mod_divide by lia. unfold a. symmetry. apply Z.divide_abs_l. }
    replace (Z.of_nat (S j)) with (Z.of_nat j + 1) by lia.
    destruct (Z.eqb_spec ((Z.of_nat j + 1) mod frequency_report) 0)
      as [Hzero|Hnonzero].
    + apply Hmod in Hzero.
      destruct (div_succ_multiple (Z.of_nat j) a Ha Hzero) as [Hdiv Hmul].
      assert (0 <= Z.of_nat j / a) as Hq by (apply Z.div_pos; lia).
      rewrite Hdiv, seqZ_app, map_app, Hsent by lia.
      f_equal. rewrite seqZ_cons, seqZ_nil by lia. cbn [map].
      repeat f_equal. lia.
    + assert ((Z.of_nat j + 1) mod a <> 0) as Hnz by (by rewrite <- Hmod).
      by rewrite (div_succ_other (Z.of_nat j) a Ha Hnz).
Qed.

Lemma sampling_task_sends uniform num_samples task_id frequency_report :
  frequency_report <> 0 ->
  exists n,
    sampling_task uniform num_samples task_id frequency_report
    = Return (n,
              map (fun q => (task_id, q * Z.abs frequency_report))
                  (seqZ 1 (num_samples / Z.abs frequency_report))
              ++ [(task_id, num_samples)]).
Proof.
  intros Hfreq. unfold sampling_task. rewrite range_of_nat.
  destruct (sampling_loop_reports uniform task_id frequency_report
              (Z.to_nat num_samples) Hfreq) as (l & -> & ->).
  eexists. do 3 f_equal.
  destruct (Z.le_gt_cases 0 num_samples) as [Hpos|Hneg].
  - by rewrite Z2Nat.id.
  - rewrite Z2Nat.nonpos by lia. rewrite Z.div_0_l by lia.
    assert (num_samples / Z.abs frequency_report < 0) as Hq.
    { apply Z.div_lt_upper_bound; lia. }
    unfold seqZ. rewrite (Z2Nat.nonpos (_ / _)) by lia. reflexivity.
Qed.

(** X5.  What [sampling_task] returns and sends when [frequency_report] is not
    [0]: it returns the number of its points inside the circle; it sends
    one call for every multiple of the magnitude of [frequency_report] up
    to [num_samples], in increasing order, carrying that multiple, and then
    the final call carrying [num_samples]: [num_samples //
    abs(frequency_report) + 1] calls when [num_samples] is not negative. *)
Theorem sampling_task_reports uniform num_samples task_id frequency_report :
  frequency_report <> 0 ->
  let reports :=
    map (fun q => (task_id, q * Z.abs frequency_report))
        (seqZ 1 (num_samples / Z.abs frequency_report)) in
  sampling_task uniform num_samples task_id frequency_report
  = Return (inside_count uniform num_samples,
            reports ++ [(task_id, num_samples)]) /\
  (0 <= num_samples ->
   Z.of_nat (length (reports ++ [(task_id, num_samples)]))
   = num_samples / Z.abs frequency_report + 1).
Proof.
  intros Hfreq reports.
  destruct (sampling_task_sends uniform num_samples task_id frequency_report
              Hfreq) as (n & Hsends).
  destruct (sampling_task_returns uniform num_samples task_id
              frequency_report Hfreq) as (calls & Hret & _).
  split.
  - rewrite Hsends. rewrite Hret in Hsends. by simplify_eq.
  - intros Hn. unfold reports.
    rewrite length_app, length_map, length_seqZ. cbn.
    assert (0 <= num_samples / Z.abs frequency_report)
      by (apply Z.div_pos; [done|by apply Z.abs_pos]).
    lia.
Qed.

(** X6.  Without samples to draw, the task returns [0] and sends its final
    call only, whatever [frequency_report] is, [0] included: the remainder
    is never computed. *)
Theorem sampling_task_no_samples uniform num_samples task_id frequency_report :
  num_samples <= 0 ->
  sampling_task uniform num_samples task_id frequency_report
  = Return (0, [(task_id, num_samples)]).
Proof.
  intros Hn. unfold sampling_task, range, seqZ.
  by rewrite Z2Nat.nonpos.
Qed.

End SamplingMore.

(** ** The run as a whole *)

Section RunFacts.
Import ProgressPIActor Progress Sampling Run.
Context {L : Libm} {F : Float64}.
Implicit Types (d : gmap Z Z) (s : self) (calls mailbox : list call).
Implicit Types (pending : list (list call)).

Lemma deliver_app calls calls' s :
  deliver (calls ++ calls') s = deliver calls' (deliver calls s).
Proof. unfold deliver. apply fold_left_app. Qed.

Lemma deliveries_app pending mailbox pending' mailbox' pending'' :
  deliveries pending mailbox pending' ->
  deliveries pending' mailbox' pending'' ->
  deliveries pending (mailbox ++ mailbox') pending''.
Proof.
  induction 1 as [|pending i c queue mailbox pending' Hi _ IH]; intros Hrest.
  - done.
  - cbn. eapply deliveries_next; [exact Hi|]. by apply IH.
Qed.

Lemma deliveries_app_inv pending mailbox mailbox' pending'' :
  deliveries pending (mailbox ++ mailbox') pending'' ->
  exists pending',
    deliveries pending mailbox pending' /\
    deliveries pending' mailbox' pending''.
Proof.
  revert pending. induction mailbox as [|c mailbox IH]; intros pending Hrun.
  - exists pending. split; [constructor|done].
  - inversion Hrun as [|? i ? queue ? ? Hi Hrest]; subst.
    destruct (IH _ Hrest) as (pending' & Hfirst & Hsecond).
    exists pending'. split; [|done]. by eapply deliveries_next.
Qed.

(** The sum of the recorded counts of a run is between [0] and [k * m]. *)
Lemma sum_values_task_counts (k m : Z) d :
  0 < k -> 0 < m ->
  (forall t n, d !! t = Some n -> 0 <= t < k /\ 0 <= n <= m) ->
  0 <= sum (values d) <= k * m.
Proof.
  intros Hk Hm Hd.
  rewrite (sum_values_range (Z.to_nat k)), Z2Nat.id by
    (try lia; intros t [n Hn]; apply Hd in Hn; lia).
  pose proof (sum_bounds 0 m (map (recorded d) (range k))) as Hb.
  rewrite length_map in Hb. unfold range in Hb.
  rewrite length_seqZ, Z2Nat.id in Hb by lia.
  rewrite Z.mul_0_r in Hb. apply Hb, Forall_forall. intros x Hx.
  apply list_elem_of_In, in_map_iff in Hx as (t & <- & _).
  unfold recorded. destruct (d !! t) as [n|] eqn:Hn; simpl; [|lia].
  by apply Hd in Hn as [_ ?].
Qed.

(** When every task has [m] recorded, the recorded counts sum to
    [k * m]. *)
Lemma sum_values_all_final (k m : Z) d :
  0 < k ->
  (forall t n, d !! t = Some n -> 0 <= t < k) ->
  (forall t, 0 <= t < k -> d !! t = Some m) ->
  sum (values d) = k * m.
Proof.
  intros Hk Hdom Hfinal.
  rewrite (sum_values_range (Z.to_nat k)), Z2Nat.id by
    (try lia; intros t [n Hn]; apply Hdom in Hn; lia).
  rewrite (map_ext_in _ (fun _ => m)).
  - rewrite sum_map_const. unfold range. rewrite length_seqZ, Z2Nat.id; lia.
  - intros t Hin. apply list_elem_of_In, elem_of_seqZ in Hin.
    unfold recorded. rewrite Hfinal; [done|lia].
Qed.

Lemma seqZ_sorted (a n : Z) : StronglySorted Z.le (seqZ a n).
Proof.
  unfold seqZ. generalize (Z.to_nat n). intros len.
  change (StronglySorted Z.le ((fun i : nat => Z.of_nat i + a) <$> seq 0 len)).
  generalize 0%nat. induction len as [|len IH]; intros start; [constructor|].
  cbn. constructor; [apply IH|].
  apply Forall_forall. intros x Hx.
  apply list_elem_of_fmap in Hx as (i & -> & Hi).
  apply elem_of_seq in Hi. lia.
Qed.

Section OneRun.
Variable p : params.
Variable uniform : Z -> nat -> float.
Let k := NUM_SAMPLING_TASKS p.
Let m := NUM_SAMPLES_PER_TASK p.
Hypothesis Hk : 0 < k.
Hypothesis Hm : 0 < m.
Hypothesis Hfreq : SAMPLE_REPORT_FREQUENCY p <> 0.

Lemma outboxes_lookup (i : nat) queue :
  outboxes p uniform !! i = Some queue ->
  Z.of_nat i < k /\
  queue = map (fun q => (Z.of_nat i, q * Z.abs (SAMPLE_REPORT_FREQUENCY p)))
              (seqZ 1 (m / Z.abs (SAMPLE_REPORT_FREQUENCY p)))
          ++ [(Z.of_nat i, m)].
Proof.
  unfold outboxes, results. rewrite map_map.
  change (map ?f ?l) with (f <$> l). rewrite list_lookup_fmap.
  unfold range. intros Hlook.
  destruct (seqZ 0 (NUM_SAMPLING_TASKS p) !! i) as [t|] eqn:Ht; [|done].
  apply lookup_seqZ in Ht as [-> Hi]. split; [done|].
  cbn in Hlook. rewrite Z.add_0_l in Hlook.
  destruct (sampling_task_sends (uniform (Z.of_nat i)) m (Z.of_nat i)
              (SAMPLE_REPORT_FREQUENCY p) Hfreq) as (n & Hsends).
  fold m in Hlook. rewrite Hsends in Hlook. by simplify_eq.
Qed.

(** At the start of the run, with nothing delivered yet. *)
Lemma outboxes_run_ok : run_ok k m (outboxes p uniform) ∅.
Proof.
  assert (0 < Z.abs (SAMPLE_REPORT_FREQUENCY p)) as Ha by (by apply Z.abs_pos).
  split; [|split].
  - unfold outboxes, results, range.
    by rewrite !length_map, length_seqZ.
  - intros i queue Hqueue. apply outboxes_lookup in Hqueue as [Hi ->].
    split; [|split].
    + apply Forall_app. split.
      * apply Forall_forall. intros c Hc.
        apply list_elem_of_In, in_map_iff in Hc as (q & <- & Hq).
        apply list_elem_of_In, elem_of_seqZ in Hq. cbn.
        pose proof (Z.mul_div_le m _ Ha) as Hle.
        split; [done|]. rewrite lookup_empty. cbn. nia.
      * repeat constructor; cbn; rewrite ?lookup_empty; cbn; lia.
    + apply StronglySorted_app_2.
      * intros c c' Hc Hc'.
        apply list_elem_of_In, in_map_iff in Hc as (q & <- & Hq).
        apply list_elem_of_In, elem_of_seqZ in Hq.
        apply list_elem_of_singleton in Hc' as ->. cbn.
        pose proof (Z.mul_div_le m _ Ha) as Hle. nia.
      * change (map ?f ?l) with (f <$> l).
        apply (StronglySorted_fmap _ Z.le); [|apply seqZ_sorted].
        intros x y Hxy. cbn. nia.
      * repeat constructor.
    + left. apply last_snoc.
  - intros t n Hn. by rewrite lookup_empty in Hn.
Qed.

(** Delivering the next pending call of a task. *)
Lemma run_ok_next pending d (i : nat) (c : call) queue :
  run_ok k m pending d ->
  pending !! i = Some (c :: queue) ->
  run_ok k m (<[i := queue]> pending) (<[c.1 := c.2]> d) /\
  recorded d c.1 <= c.2.
Proof.
  intros (Hlen & Hqueues & Hd) Hi.
  destruct (Hqueues i _ Hi) as (Hcalls & Hsorted & Hlast).
  apply Forall_cons in Hcalls as [[Hc1 Hc2] Hcalls].
  apply StronglySorted_inv in Hsorted as [Hsorted Hhead].
  assert (Z.of_nat i < k) as Hik.
  { apply lookup_lt_Some in Hi. lia. }
  assert (0 <= default 0 (d !! Z.of_nat i)) as Hrec.
  { destruct (d !! Z.of_nat i) as [n|] eqn:Hn; cbn; [|lia].
    by apply Hd in Hn as [_ [? _]]. }
  split; [|unfold recorded; rewrite Hc1; lia].
  split; [by rewrite length_insert|]. split.
  - intros j queue' Hj.
    apply list_lookup_insert_Some in Hj as [(<- & <- & _)|(Hne & Hj)].
    + rewrite Hc1. split; [|split; [done|]].
      * rewrite lookup_insert_eq. cbn.
        rewrite Forall_forall in Hcalls, Hhead. apply Forall_forall.
        intros c' Hc'. destruct (Hcalls c' Hc') as [? [_ ?]].
        split; [done|]. split; [by apply Hhead|done].
      * destruct Hlast as [Hlast|[? _]]; [|done].
        destruct queue as [|c' queue]; [|left; by rewrite last_cons_cons in Hlast].
        right. split; [done|]. cbn in Hlast. simplify_eq.
        cbn. by rewrite lookup_insert_eq.
    + destruct (Hqueues j _ Hj) as (Hcalls' & Hsorted' & Hlast').
      assert (Z.of_nat i <> Z.of_nat j) as Hij by lia.
      unfold queue_ok. rewrite Hc1, lookup_insert_ne by done. done.
  - intros t n Hn. rewrite Hc1 in Hn.
    destruct (decide (t = Z.of_nat i)) as [->|Hne].
    + rewrite lookup_insert_eq in Hn. simplify_eq. lia.
    + rewrite lookup_insert_ne in Hn by done. by apply Hd.
Qed.

(** The invariant holds along the run, and the sum of the recorded counts
    never goes down. *)
Lemma run_ok_deliveries pending mailbox pending' s :
  deliveries pending mailbox pending' ->
  run_ok k m pending (num_samples_completed_per_task s) ->
  run_ok k m pending' (num_samples_completed_per_task (deliver mailbox s)) /\
  sum (values (num_samples_completed_per_task s))
  <= sum (values (num_samples_completed_per_task (deliver mailbox s))).
Proof.
  intros Hrun. revert s.
  induction Hrun as [|pending i c queue mailbox pending' Hi _ IH];
    intros s Hok.
  - split; [done|]. cbn. lia.
  - destruct (run_ok_next _ _ _ _ _ Hok Hi) as [Hok' Hc].
    destruct (IH (report_progress c.1 c.2 s).2 Hok') as [Hfinal Hsum].
    split; [exact Hfinal|].
    etrans; [|exact Hsum]. cbn. rewrite sum_values_insert. lia.
Qed.

End OneRun.

End RunFacts.

(** What [get_progress] returns in a state of the run. *)
Lemma run_progress_value {F : Float64} (k m : Z) (s : ProgressPIActor.self) :
  0 < k -> 0 < m ->
  ProgressPIActor.total_num_samples s = k * m ->
  (forall t n,
     ProgressPIActor.num_samples_completed_per_task s !! t = Some n ->
     0 <= t < k /\ 0 <= n <= m) ->
  exists q : Q,
    (ProgressPIActor.get_progress s).1 = Return q /\
    q = fl (inject_Z (sum (ProgressPIActor.values
                             (ProgressPIActor.num_samples_completed_per_task s)))
            / inject_Z (k * m)) /\
    (0 <= q <= 1)%Q.
Proof.
  intros Hk Hm Htotal Hd.
  pose proof (sum_values_task_counts k m _ Hk Hm Hd) as Hsum.
  destruct (true_div_bounded
              (sum (ProgressPIActor.values
                      (ProgressPIActor.num_samples_completed_per_task s)))
              (k * m) 1) as (q & Hq & Hval & Hbounds); [lia|lia|lia|].
  exists q. split; [|done]. cbn. by rewrite Htotal.
Qed.

Section RunTheorems.
Import ProgressPIActor Progress Sampling Run.
Context {L : Libm} {F : Float64}.

(** X8.  In a run of the notebook (a positive number of tasks and of samples
    per task, a report frequency other than [0]), whatever the order in
    which the actor receives the calls of different tasks: at any moment
    [get_progress] raises nothing and returns a value in [0, 1], and a
    later moment never shows less progress than an earlier one. *)
Theorem run_progress_monotone (p : params) (uniform : Z -> nat -> float)
    (mailbox mailbox' : list call) (pending pending' : list (list call)) :
  0 < NUM_SAMPLING_TASKS p -> 0 < NUM_SAMPLES_PER_TASK p ->
  SAMPLE_REPORT_FREQUENCY p <> 0 ->
  deliveries (outboxes p uniform) mailbox pending ->
  deliveries pending mailbox' pending' ->
  exists earlier later : Q,
    (get_progress (deliver mailbox (progress_actor p))).1 = Return earlier /\
    (get_progress (deliver (mailbox ++ mailbox') (progress_actor p))).1
    = Return later /\
    (0 <= earlier)%Q /\ (earlier <= later)%Q /\ (later <= 1)%Q.
Proof.
  intros Hk Hm Hfreq Hrun Hrun'.
  set (k := NUM_SAMPLING_TASKS p) in *. set (m := NUM_SAMPLES_PER_TASK p) in *.
  set (a := progress_actor p).
  destruct (run_ok_deliveries p Hk _ _ _ a Hrun) as [Hok Hsum].
  { apply (outboxes_run_ok p uniform Hm Hfreq). }
  destruct (run_ok_deliveries p Hk _ _ _ (deliver mailbox a) Hrun' Hok)
    as [Hok' Hsum'].
  rewrite <- deliver_app in Hok', Hsum'.
  destruct (run_progress_value k m (deliver mailbox a))
    as (q & Hq & Hqv & Hq0 & Hq1); [done|done|apply deliver_total|apply Hok|].
  destruct (run_progress_value k m (deliver (mailbox ++ mailbox') a))
    as (q' & Hq' & Hqv' & Hq0' & Hq1');
    [done|done|apply deliver_total|apply Hok'|].
  exists q, q'. repeat split; try done.
  rewrite Hqv, Hqv'. apply fl_monotone. unfold Qdiv.
  apply Qmult_le_compat_r.
  - by rewrite <- Zle_Qle.
  - apply Qinv_le_0_compat. change 0%Q with (inject_Z 0).
    rewrite <- Zle_Qle. lia.
Qed.

(** X9.  In a run of the notebook (a positive number of tasks and of
    samples per task, a report frequency other than [0]), once every call
    of every task is delivered, in any
    order that keeps each task's calls in the order they were sent, every
    task has [NUM_SAMPLES_PER_TASK] recorded, [get_progress] returns a
    value equal to 1 and the polling loop's test [progress == 1] holds. *)
Theorem run_complete_progress (p : params) (uniform : Z -> nat -> float)
    (mailbox : list call) (pending' : list (list call)) :
  0 < NUM_SAMPLING_TASKS p -> 0 < NUM_SAMPLES_PER_TASK p ->
  SAMPLE_REPORT_FREQUENCY p <> 0 ->
  deliveries (outboxes p uniform) mailbox pending' ->
  Forall (fun queue => queue = []) pending' ->
  let a := deliver mailbox (progress_actor p) in
  (forall task_id,
     num_samples_completed_per_task a !! task_id
     = if bool_decide (0 <= task_id < NUM_SAMPLING_TASKS p)
       then Some (NUM_SAMPLES_PER_TASK p) else None) /\
  (exists q : Q, (get_progress a).1 = Return q /\ (q == 1)%Q) /\
  poll a = Return true.
Proof.
  intros Hk Hm Hfreq Hrun Hempty a.
  set (k := NUM_SAMPLING_TASKS p) in *. set (m := NUM_SAMPLES_PER_TASK p) in *.
  destruct (run_ok_deliveries p Hk _ _ _ (progress_actor p) Hrun)
    as [(Hlen & Hqueues & Hd) _].
  { apply (outboxes_run_ok p uniform Hm Hfreq). }
  fold a in Hqueues, Hd.
  assert (forall t, 0 <= t < k ->
                    num_samples_completed_per_task a !! t = Some m) as Hfinal.
  { intros t Ht.
    destruct (lookup_lt_is_Some_2 pending' (Z.to_nat t)) as [queue Hqueue];
      [lia|].
    destruct (Hqueues _ _ Hqueue) as (_ & _ & Hlast).
    rewrite Forall_forall in Hempty.
    rewrite (Hempty queue) in Hlast
      by (by eapply list_elem_of_lookup_2).
    rewrite Z2Nat.id in Hlast by lia.
    by destruct Hlast as [?|[_ ?]]. }
  assert (sum (values (num_samples_completed_per_task a)) = k * m) as Hsum.
  { apply sum_values_all_final; [done| |done].
    intros t n Hn. by apply Hd in Hn as [? _]. }
  destruct (true_div_same (k * m)) as (q & Hq & Hone); [lia|].
  assert ((get_progress a).1 = Return q) as Hget.
  { cbn. rewrite Hsum. unfold a. by rewrite deliver_total. }
  split; [|split; [by exists q|]].
  - intros t. case_bool_decide as Ht; [by apply Hfinal|].
    destruct (num_samples_completed_per_task a !! t) as [n|] eqn:Hn; [|done].
    by apply Hd in Hn as [? _].
  - unfold poll. rewrite Hget. f_equal. by apply Qeq_bool_iff.
Qed.

End RunTheorems.

(** ** The polling loop *)

Section PollingFacts.
Import ProgressPIActor Progress Sampling Run.
Context {F : Float64}.

Lemma int_nonneg (x : Q) : (0 <= x)%Q -> int_ x = Qfloor x.
Proof.
  destruct x as [n d]. unfold Qle, int_, Qfloor. cbn. intros Hn.
  apply Z.quot_div_nonneg; lia.
Qed.

Lemma fl_between (x : Q) (lo hi : Z) :
  Z.abs lo <= 2 ^ 53 -> Z.abs hi <= 2 ^ 53 ->
  (inject_Z lo <= x <= inject_Z hi)%Q ->
  (inject_Z lo <= fl x <= inject_Z hi)%Q.
Proof.
  intros Hlo Hhi [Hx Hx']. split.
  - eapply Qle_trans; [|apply fl_monotone, Hx].
    apply Qle_lteq. right. symmetry. by apply fl_integer.
  - eapply Qle_trans; [apply fl_monotone, Hx'|].
    apply Qle_lteq. right. by apply fl_integer.
Qed.

(** [int(progress * 100)] for a progress between 0 and 1. *)
Lemma percent_unit (q : Q) :
  (0 <= q <= 1)%Q ->
  exists pct,
    percent q = Return pct /\
    pct = Qfloor (fl (q * inject_Z 100)) /\ 0 <= pct <= 100.
Proof.
  intros [Hq0 Hq1].
  assert (inject_Z 0 <= q * inject_Z 100 <= inject_Z 100)%Q as [Hlo Hhi].
  { split.
    - apply Qmult_le_0_compat; [done|by vm_compute].
    - rewrite <- (Qmult_1_l (inject_Z 100)) at 2.
      apply Qmult_le_compat_r; [done|by vm_compute]. }
  assert (inject_Z 0 <= fl (q * inject_Z 100) <= inject_Z 100)%Q as [Hflo Hfhi].
  { apply fl_between; [by vm_compute|by vm_compute|done]. }
  exists (Qfloor (fl (q * inject_Z 100))). split; [|split; [done|]].
  - unfold percent. cbv zeta. rewrite finite_range.
    + by rewrite int_nonneg.
    + split.
      * eapply Qle_trans; [|exact Hlo]. by vm_compute.
      * eapply Qle_trans; [exact Hhi|]. by vm_compute.
  - split.
    + rewrite <- (Qfloor_Z 0). by apply Qfloor_resp_le.
    + rewrite <- (Qfloor_Z 100). by apply Qfloor_resp_le.
Qed.

Lemma percent_one (q : Q) : (q == 1)%Q -> percent q = Return 100.
Proof.
  intros Hone.
  destruct (percent_unit q) as (pct & -> & -> & _).
  { rewrite Hone. split; by vm_compute. }
  f_equal. rewrite <- (Qfloor_Z 100). apply Qfloor_comp.
  etrans; [|apply (fl_integer 100); by vm_compute]. apply fl_proper.
  rewrite Hone. reflexivity.
Qed.

Lemma percent_monotone (q q' : Q) (pct pct' : Z) :
  (0 <= q)%Q -> (q <= q')%Q -> (q' <= 1)%Q ->
  percent q = Return pct -> percent q' = Return pct' -> pct <= pct'.
Proof.
  intros Hq0 Hqq' Hq1 Hpct Hpct'.
  destruct (percent_unit q) as (x & Hx & -> & _);
    [split; [done|by eapply Qle_trans]|].
  destruct (percent_unit q') as (x' & Hx' & -> & _);
    [split; [by eapply Qle_trans|done]|].
  rewrite Hx in Hpct. rewrite Hx' in Hpct'. simplify_eq.
  apply Qfloor_resp_le, fl_monotone, Qmult_le_compat_r; [done|by vm_compute].
Qed.

End PollingFacts.

Section PollingRun.
Import ProgressPIActor Progress Sampling Run.
Context {L : Libm} {F : Float64}.
Implicit Types (s : self) (printed : list Z) (batches : list (list call)).

Lemma run_ok_complete_sum (k m : Z) (pending : list (list call))
    (d : gmap Z Z) :
  0 < k ->
  run_ok k m pending d -> Forall (fun queue => queue = []) pending ->
  sum (values d) = k * m.
Proof.
  intros Hk (Hlen & Hqueues & Hd) Hempty.
  apply sum_values_all_final; [done| |].
  - intros t n Hn. by apply Hd in Hn as [? _].
  - intros t Ht.
    destruct (lookup_lt_is_Some_2 pending (Z.to_nat t)) as [queue Hqueue];
      [lia|].
    destruct (Hqueues _ _ Hqueue) as (_ & _ & Hlast).
    rewrite Forall_forall in Hempty.
    rewrite (Hempty queue) in Hlast by (by eapply list_elem_of_lookup_2).
    rewrite Z2Nat.id in Hlast by lia.
    by destruct Hlast as [?|[_ ?]].
Qed.

Lemma poll_pass_run (k m : Z) s :
  0 < k -> 0 < m ->
  total_num_samples s = k * m ->
  (forall t n, num_samples_completed_per_task s !! t = Some n ->
               0 <= t < k /\ 0 <= n <= m) ->
  exists (q : Q) (pct : Z),
    (get_progress s).1 = Return q /\
    q = fl (inject_Z (sum (values (num_samples_completed_per_task s)))
            / inject_Z (k * m)) /\
    (0 <= q <= 1)%Q /\
    percent q = Return pct /\ 0 <= pct <= 100 /\
    poll_pass s = Return (pct, eq_int q 1).
Proof.
  intros Hk Hm Htotal Hd.
  destruct (run_progress_value k m s Hk Hm Htotal Hd) as (q & Hq & Hqv & Hqb).
  destruct (percent_unit q Hqb) as (pct & Hpct & _ & Hpctb).
  exists q, pct. split; [done|]. split; [done|]. split; [done|].
  split; [done|]. split; [done|].
  unfold poll_pass. by rewrite Hq, Hpct.
Qed.

Section OneRun.
Variable p : params.
Let k := NUM_SAMPLING_TASKS p.
Let m := NUM_SAMPLES_PER_TASK p.
Hypothesis Hk : 0 < k.
Hypothesis Hm : 0 < m.
Variable pending' : list (list call).

Lemma polling_loop_run batches :
  forall (pending : list (list call)) s printed,
    run_ok k m pending (num_samples_completed_per_task s) ->
    total_num_samples s = k * m ->
    (forall q pct, (get_progress s).1 = Return q -> percent q = Return pct ->
                   Forall (fun x => 0 <= x <= pct) printed) ->
    StronglySorted Z.le printed ->
    deliveries pending (concat batches) pending' ->
    exists printed' exited,
      polling_loop batches s printed = Return (printed', exited) /\
      Forall (fun pct => 0 <= pct <= 100) printed' /\
      StronglySorted Z.le printed' /\
      (exited = true -> last printed' = Some 100) /\
      (batches <> [] -> Forall (fun queue => queue = []) pending' ->
       exited = true).
Proof.
  induction batches as [|batch batches IH];
    intros pending s printed Hok Htotal Hprinted Hsorted Hrun.
  - exists printed, false. cbn. repeat split; try done.
    destruct (poll_pass_run k m s Hk Hm Htotal ltac:(apply Hok))
      as (q & pct & Hq & _ & _ & Hpct & Hpctb & _).
    eapply Forall_impl; [exact (Hprinted q pct Hq Hpct)|].
    cbn. intros x ?. lia.
  - cbn [concat] in Hrun.
    apply deliveries_app_inv in Hrun as (mid & Hbatch & Hrest).
    destruct (run_ok_deliveries p Hk _ _ _ s Hbatch Hok) as [Hok' Hsum].
    set (s' := deliver batch s) in *.
    assert (total_num_samples s' = k * m) as Htotal'
      by (unfold s'; by rewrite deliver_total).
    destruct (poll_pass_run k m s Hk Hm Htotal ltac:(apply Hok))
      as (q & pct & Hq & Hqv & Hqb & Hpct & Hpctb & _).
    destruct (poll_pass_run k m s' Hk Hm Htotal' ltac:(apply Hok'))
      as (q' & pct' & Hq' & Hqv' & Hqb' & Hpct' & Hpctb' & Hpass).
    assert (q <= q')%Q as Hqq'.
    { rewrite Hqv, Hqv'. apply fl_monotone. unfold Qdiv.
      apply Qmult_le_compat_r; [by rewrite <- Zle_Qle|].
      apply Qinv_le_0_compat. change 0%Q with (inject_Z 0).
      rewrite <- Zle_Qle. lia. }
    assert (pct <= pct') as Hpp'
      by (by apply (percent_monotone q q'); destruct Hqb, Hqb').
    assert (Forall (fun x => 0 <= x <= pct') (printed ++ [pct'])) as Hall.
    { apply Forall_app. split; [|repeat constructor; lia].
      eapply Forall_impl; [exact (Hprinted q pct Hq Hpct)|].
      cbn. intros x ?. lia. }
    assert (StronglySorted Z.le (printed ++ [pct'])) as Hsorted'.
    { apply StronglySorted_app_2; [|done|repeat constructor].
      intros x y Hx Hy. apply list_elem_of_singleton in Hy as ->.
      pose proof (Hprinted q pct Hq Hpct) as Hle.
      rewrite Forall_forall in Hle. apply Hle in Hx. lia. }
    cbn [polling_loop]. fold s'. rewrite Hpass.
    destruct (eq_int q' 1) eqn:Hexit.
    + exists (printed ++ [pct']), true. repeat split; try done.
      * eapply Forall_impl; [exact Hall|]. cbn. intros x ?. lia.
      * intros _. rewrite last_snoc. f_equal.
        apply Qeq_bool_iff in Hexit.
        rewrite (percent_one q' Hexit) in Hpct'. by simplify_eq.
    + destruct (IH mid s' (printed ++ [pct'])) as
        (printed' & exited & Hloop & Hb & Hs & Hlast & Hcomplete);
        try done.
      { intros q'' pct'' Hq'' Hpct''. rewrite Hq' in Hq''. simplify_eq.
        rewrite Hpct' in Hpct''. by simplify_eq. }
      exists printed', exited. repeat split; try done.
      intros _ Hempty. destruct batches as [|batch' batches'].
      * cbn in Hrest. inversion Hrest; subst.
        pose proof (run_ok_complete_sum k m _ _ Hk Hok' Hempty) as Hfull.
        destruct (true_div_same (k * m)) as (q1 & Hq1 & Hone); [lia|].
        cbn in Hq'. fold s' in Hq'. rewrite Hfull, Htotal', Hq1 in Hq'.
        simplify_eq. apply Qeq_bool_iff in Hone.
        unfold eq_int in Hexit. change (inject_Z 1) with 1%Q in Hexit.
        congruence.
      * by apply Hcomplete.
Qed.

End OneRun.

(** X10.  The percentages the polling loop prints during a run of the notebook,
    however the deliveries fall between the polls: each is between 0 and
    100, they never go down, if the loop leaves through [break] the last
    one printed is 100, and the loop does leave by the poll that follows
    the delivery of the last call at the latest. *)
Theorem polling_loop_prints (p : params) (uniform : Z -> nat -> float)
    batches (pending' : list (list call)) :
  0 < NUM_SAMPLING_TASKS p -> 0 < NUM_SAMPLES_PER_TASK p ->
  SAMPLE_REPORT_FREQUENCY p <> 0 ->
  deliveries (outboxes p uniform) (concat batches) pending' ->
  exists printed exited,
    polling_loop batches (progress_actor p) [] = Return (printed, exited) /\
    Forall (fun pct => 0 <= pct <= 100) printed /\
    StronglySorted Z.le printed /\
    (exited = true -> last printed = Some 100) /\
    (batches <> [] -> Forall (fun queue => queue = []) pending' ->
     exited = true).
Proof.
  intros Hk Hm Hfreq Hrun.
  apply (polling_loop_run p Hk Hm pending' batches (outboxes p uniform));
    try done.
  - apply (outboxes_run_ok p uniform Hm Hfreq).
  - constructor.
Qed.

End PollingRun.

(** ** More on the presentation cell *)

Section SortedMore.
Context {A : Type} (num : A -> Q).
Implicit Types (l : list (value * A)) (xs : list A).
Local Abbreviation keyed := (Results.keyed num).
Local Abbreviation le := (Results.key_le num).

(** Inserting in front of a list whose head is not smaller. *)
Lemma sort_decorated_sorted_input l :
  Forall keyed l -> Sorted le l -> sort_decorated l = Return l.
Proof.
  induction l as [|[kx x] l IH]; intros Hkeyed Hsorted; [done|].
  apply Forall_cons in Hkeyed as [Hx Hl].
  apply Sorted_inv in Hsorted as [Hsorted Hhd].
  cbn [sort_decorated]. rewrite IH by done.
  destruct Hhd as [|[ky y] l Hxy]; [done|].
  apply Forall_cons in Hl as [Hy _].
  cbn [insert_by]. rewrite (value_lt_numbers ky kx (num y) (num x)) by done.
  unfold Results.key_le in Hxy. cbn in Hxy.
  apply Qle_bool_iff in Hxy. by rewrite Hxy.
Qed.

(** Insertion keeps the order in which the elements of a given number
    occur. *)
Lemma insert_by_stable (c : Q) (kx : value) (x : A) l l' :
  keyed (kx, x) -> Forall keyed l ->
  insert_by kx x l = Return l' ->
  List.filter (fun p => Qeq_bool (num p.2) c) l'
  = List.filter (fun p => Qeq_bool (num p.2) c) ((kx, x) :: l).
Proof.
  intros Hx. revert l'.
  induction l as [|[ky y] l IH]; intros l' Hl Hins; cbn [insert_by] in Hins.
  - by simplify_eq.
  - apply Forall_cons in Hl as [Hy Hl].
    rewrite (value_lt_numbers ky kx (num y) (num x)) in Hins by done.
    destruct (Qle_bool (num x) (num y)) eqn:Hle; cbn [negb] in Hins.
    + by simplify_eq.
    + destruct (insert_by kx x l) as [r|] eqn:Hr; [|done]. simplify_eq.
      cbn [List.filter]. rewrite (IH r Hl eq_refl). cbn [List.filter snd].
      destruct (Qeq_bool (num y) c) eqn:Hyc; [|done].
      destruct (Qeq_bool (num x) c) eqn:Hxc; [|done].
      apply Qeq_bool_iff in Hyc, Hxc.
      assert (Qle_bool (num x) (num y) = true) as Hle'.
      { apply Qle_bool_iff. rewrite Hyc, Hxc. apply Qle_refl. }
      congruence.
Qed.

Lemma sort_decorated_stable (c : Q) l l' :
  Forall keyed l -> sort_decorated l = Return l' ->
  List.filter (fun p => Qeq_bool (num p.2) c) l'
  = List.filter (fun p => Qeq_bool (num p.2) c) l.
Proof.
  revert l'. induction l as [|[kx x] l IH]; intros l' Hl Hsort;
    cbn [sort_decorated] in Hsort.
  - by simplify_eq.
  - apply Forall_cons in Hl as [Hx Hl].
    destruct (sort_decorated_sorted num l Hl) as (s & Hs & _ & Hkeyed & _).
    rewrite Hs in Hsort.
    rewrite (insert_by_stable c kx x s l' Hx Hkeyed Hsort).
    cbn [List.filter]. by rewrite (IH s Hl Hs).
Qed.

Lemma decorate_numeric xs (key : A -> outcome value) :
  Forall (fun x => exists v, key x = Return v /\
                             as_number v = Some (num x)) xs ->
  exists d,
    mapM (fun x => match key x with
                   | Return k => Return (k, x)
                   | Raise e => Raise e
                   end) xs = Return d /\
    map snd d = xs /\ Forall keyed d.
Proof.
  induction 1 as [|x xs (v & Hv & Hnum) _ (d & Hd & Hsnd & Hkeyed)].
  - by exists [].
  - exists ((v, x) :: d). cbn. rewrite Hv. cbn. rewrite Hd. cbn.
    repeat split; [by rewrite Hsnd|]. by apply Forall_cons.
Qed.

Lemma filter_map_snd (f : A -> bool) l :
  List.filter f (map snd l) = map snd (List.filter (fun p => f p.2) l).
Proof.
  induction l as [|[k x] l IH]; [done|]. cbn. destruct (f x); cbn; by rewrite IH.
Qed.

End SortedMore.

Section PresentationMore.
Import ActorTree Results.

Lemma mse_key_numeric (values : list dict) :
  Forall (fun r => is_Some (mse_of r)) values ->
  Forall (fun r => exists v, itemgetter "mse" r = Return v /\
                             as_number v = Some (default 0%Q (mse_of r)))
         values.
Proof.
  intros Hmse. eapply Forall_impl; [exact Hmse|]. intros r [x Hx].
  unfold mse_of in *. unfold itemgetter, getitem.
  destruct (r !! "mse"%string) as [v|]; [|done].
  exists v. by rewrite Hx.
Qed.

(** X13.  A record without an 'mse' key makes the presentation cell raise
    [KeyError('mse')]: nothing is sorted. *)
Theorem sorted_by_mse_missing_key (values : list dict) :
  Exists (fun r => r !! "mse"%string = None) values ->
  sorted_by_mse values = Raise (KeyError "mse").
Proof.
  intros Hmissing. unfold sorted_by_mse, sorted.
  match goal with
  | |- match ?decorated with _ => _ end = _ =>
      assert (decorated = Raise (KeyError "mse")) as ->; [|done]
  end.
  unfold itemgetter, getitem.
  induction Hmissing as [r values Hr|r values _ IH]; cbn.
  - by rewrite Hr.
  - destruct (r !! "mse"%string); [|done]. cbn. by rewrite IH.
Qed.

(** X14.  A results list that is already in ascending order of 'mse' is
    returned as it is. *)
Theorem sorted_by_mse_sorted_input (values : list dict) :
  Forall (fun r => is_Some (mse_of r)) values ->
  Sorted mse_le values ->
  sorted_by_mse values = Return values.
Proof.
  intros Hmse Hsorted.
  destruct (decorate_numeric (fun r => default 0%Q (mse_of r)) values
              (itemgetter "mse") (mse_key_numeric values Hmse))
    as (d & Hd & Hsnd & Hkeyed).
  unfold sorted_by_mse, sorted. rewrite Hd.
  rewrite (sort_decorated_sorted_input (fun r => default 0%Q (mse_of r)));
    [by rewrite Hsnd|done|].
  clear Hd. revert values Hsnd Hmse Hsorted.
  induction d as [|[k r] d IH]; intros values <- Hmse Hsorted; [constructor|].
  cbn in *. apply Forall_cons in Hmse as [Hr Hmse].
  apply Forall_cons in Hkeyed as [_ Hkeyed].
  apply Sorted_inv in Hsorted as [Hsorted Hhd].
  constructor; [by apply (IH Hkeyed (map snd d))|].
  destruct d as [|[k' r'] d]; constructor.
  apply HdRel_inv in Hhd. destruct Hhd as (x & y & Hx & Hy & Hxy).
  unfold key_le. cbn in *. by rewrite Hx, Hy.
Qed.

(** X15.  The sort is stable: the records that have a given 'mse' come out in
    the order in which they stand in [values]. *)
Theorem sorted_by_mse_stable (values sorted_values : list dict) (x : Q) :
  Forall (fun r => is_Some (mse_of r)) values ->
  sorted_by_mse values = Return sorted_values ->
  List.filter (mse_is x) sorted_values = List.filter (mse_is x) values.
Proof.
  intros Hmse Hsorted.
  destruct (decorate_numeric (fun r => default 0%Q (mse_of r)) values
              (itemgetter "mse") (mse_key_numeric values Hmse))
    as (d & Hd & Hsnd & Hkeyed).
  unfold sorted_by_mse, sorted in Hsorted. rewrite Hd in Hsorted.
  destruct (sort_decorated d) as [s|] eqn:Hs; [|done]. simplify_eq.
  assert (forall l : list dict,
            Forall (fun r => is_Some (mse_of r)) l ->
            List.filter (mse_is x) l
            = List.filter (fun r => Qeq_bool (default 0%Q (mse_of r)) x) l)
    as Hfilter.
  { intros l Hl. apply filter_ext_in. intros r Hr.
    rewrite Forall_forall in Hl. apply list_elem_of_In, Hl in Hr as [y Hy].
    unfold mse_is. by rewrite Hy. }
  destruct (sort_decorated_sorted (fun r => default 0%Q (mse_of r)) d Hkeyed)
    as (s' & Hs' & Hperm & _).
  rewrite Hs in Hs'. simplify_eq.
  rewrite !Hfilter; [|done|].
  - rewrite !filter_map_snd. f_equal.
    by apply (sort_decorated_stable (fun r => default 0%Q (mse_of r))).
  - rewrite <- (Permutation_map snd Hperm). done.
Qed.

End PresentationMore.

(** ** Parameters that make the total zero *)

Section ZeroTotal.
Import ProgressPIActor Progress Sampling Run.
Context {L : Libm} {F : Float64}.

(** X11.  When the tunable parameters make [TOTAL_NUM_SAMPLES] zero (no task,
    or no sample per task), no sampling task raises, but the cell that
    computes [pi] raises [ZeroDivisionError], and so does the polling
    loop in its first pass, whatever the actor has received. *)
Theorem zero_total_raises (p : params) (uniform : Z -> nat -> float)
    (batch : list call) (batches : list (list call)) :
  TOTAL_NUM_SAMPLES p = 0 ->
  (exists counts, ray_get_results p uniform = Return counts) /\
  pi p uniform = Raise ZeroDivisionError /\
  polling_loop (batch :: batches) (progress_actor p) []
  = Raise ZeroDivisionError.
Proof.
  intros Htotal.
  assert (ray_get_results p uniform
          = Return (map (fun _ => 0) (results p uniform))) as Hget.
  { unfold ray_get_results. apply mapM_Return. intros r Hr.
    unfold results in Hr.
    apply list_elem_of_In, in_map_iff in Hr as (i & <- & Hi).
    apply list_elem_of_In, elem_of_seqZ in Hi.
    assert (NUM_SAMPLES_PER_TASK p = 0) as ->.
    { unfold TOTAL_NUM_SAMPLES in Htotal. nia. }
    reflexivity. }
  split; [by eexists|]. split.
  - unfold pi, total_num_inside. rewrite Hget, Htotal. reflexivity.
  - cbn [polling_loop]. unfold poll_pass, get_progress.
    rewrite deliver_total. cbn. by rewrite Htotal.
Qed.

End ZeroTotal.

(** ** More on the model factory *)

Section FactoryMore.
Import ActorTree ActorTree.ModelFactory.
Context {U : ModelHelperUtils}.

(** X17.  The class of the handle tells the name: [create_model] returns an
    [RFRActor] only for "random_forest", a [DTActor] only for
    "decision_tree", and an [XGBoostActor], the class of the final [else],
    only for "xgboost"; with the configuration of that model each time. *)
Theorem create_model_class_name (model_name : string) (handle : ActorHandle) :
  create_model model_name = Return handle ->
  match handle_class handle with
  | RFRActor => model_name = "random_forest"%string
                /\ handle_configs handle = RANDOM_FOREST_CONFIGS
  | DTActor => model_name = "decision_tree"%string
               /\ handle_configs handle = DECISION_TREE_CONFIGS
  | XGBoostActor => model_name = "xgboost"%string
                    /\ handle_configs handle = XGBOOST_CONFIGS
  end.
Proof.
  unfold create_model. intros Hcreate.
  destruct (in_ model_name MODEL_TYPES) eqn:Hmem; [|done]. cbn [negb] in Hcreate.
  apply in__spec in Hmem. unfold MODEL_TYPES in Hmem.
  repeat (apply elem_of_cons in Hmem as [->|Hmem];
          [cbn in Hcreate; by simplify_eq|]).
  by apply elem_of_nil in Hmem.
Qed.

End FactoryMore.

Lemma create_model_class_name_witness :
  "xgboost"%string = "xgboost"%string /\
  ActorTree.handle_configs
    (ActorTree.remote ActorTree.XGBoostActor
                      {[ "name"%string := VStr "xgboost" ]})
  = {[ "name"%string := VStr "xgboost" ]}.
Proof.
  apply (create_model_class_name (U := test_helper_utils) "xgboost"
           (ActorTree.remote ActorTree.XGBoostActor
                             {[ "name"%string := VStr "xgboost" ]})).
  reflexivity.
Defined.

(** ** The shard files *)

Section ShardFiles.
Import BatchInference.

Example format_06d_small : format_06d 7 = "000007"%string.
Proof. reflexivity. Qed.

Example format_06d_wide : format_06d 1234567 = "1234567"%string.
Proof. reflexivity. Qed.

Example format_06d_negative : format_06d (-5) = "-00005"%string.
Proof. reflexivity. Qed.

Example input_shard_files_last :
  last (input_shard_files NUM_SHARD_FILES)
  = Some ("s3://anonymous@air-example-data/ursa-labs-taxi-data/downsampled_2009_full_year_data.parquet/fe41422b01c04169af2a65a83b753e0f_000011.parquet"%string).
Proof. reflexivity. Qed.

Lemma strip_zeros_zeros (n : nat) (s : string) :
  strip_zeros (zeros n +:+ s) = strip_zeros s.
Proof. induction n as [|n IH]; [done|]. cbn. exact IH. Qed.

(** The decimal digits of a positive number do not start with a zero. *)
Lemma pretty_N_go_head (x : N) (s : string) :
  (0 < x)%N ->
  exists c t, pretty_N_go x s = String c t /\ c <> "0"%char.
Proof.
  revert s. induction (N.lt_wf_0 x) as [x _ IH]; intros s Hx.
  rewrite pretty_N_go_step by done.
  destruct (N.eq_0_gt_0_cases (x `div` 10)) as [Hdiv|Hdiv].
  - rewrite Hdiv, pretty_N_go_0. eexists _, _. split; [reflexivity|].
    assert (x < 10)%N as Hlt by (by apply N.div_small_iff in Hdiv).
    rewrite N.mod_small by done.
    assert (x = 1 \/ x = 2 \/ x = 3 \/ x = 4 \/ x = 5 \/ x = 6
            \/ x = 7 \/ x = 8 \/ x = 9)%N as Hdigit by lia.
    repeat (destruct Hdigit as [->|Hdigit]; [done|]). by subst.
  - apply IH; [|done]. by apply N.div_lt.
Qed.

Lemma strip_zeros_pretty (i : Z) :
  0 <= i ->
  strip_zeros (pretty i) = if decide (i = 0) then ""%string else pretty i.
Proof.
  intros Hi. destruct i as [|x|x]; [done| |lia].
  rewrite decide_False by done.
  change (pretty (Z.pos x)) with (pretty (N.pos x)).
  unfold pretty, pretty_N. rewrite decide_False by done.
  destruct (pretty_N_go_head (N.pos x) "") as (c & t & -> & Hc); [lia|].
  cbn. by destruct (Ascii.eqb_spec c "0"%char).
Qed.

Lemma pretty_nonempty (i : Z) : 0 < i -> pretty i <> ""%string.
Proof.
  intros Hi. destruct i as [|x|x]; [lia| |lia].
  change (pretty (Z.pos x)) with (pretty (N.pos x)).
  unfold pretty, pretty_N. rewrite decide_False by done.
  destruct (pretty_N_go_head (N.pos x) "") as (c & t & -> & _); [lia|done].
Qed.

Lemma format_06d_inj (i j : Z) :
  0 <= i -> 0 <= j -> format_06d i = format_06d j -> i = j.
Proof.
  intros Hi Hj Heq. unfold format_06d in Heq.
  destruct (Z.ltb_spec i 0); [lia|]. destruct (Z.ltb_spec j 0); [lia|].
  apply (f_equal strip_zeros) in Heq.
  rewrite !strip_zeros_zeros, !strip_zeros_pretty in Heq by done.
  destruct (decide (i = 0)) as [->|Hi0], (decide (j = 0)) as [->|Hj0].
  - done.
  - by destruct (pretty_nonempty j); [lia|].
  - by destruct (pretty_nonempty i); [lia|].
  - by apply (inj pretty).
Qed.

Lemma string_app_inv_head (s t u : string) : s +:+ t = s +:+ u -> t = u.
Proof. induction s as [|c s IH]; cbn; [done|]. intros [= ?]. by apply IH. Qed.

Lemma string_app_length (s t : string) :
  String.length (s +:+ t) = (String.length s + String.length t)%nat.
Proof. induction s as [|c s IH]; [done|]. simpl. by f_equal. Qed.

Lemma string_app_inv_tail (s t u : string) : s +:+ u = t +:+ u -> s = t.
Proof.
  revert t. induction s as [|c s IH]; intros [|c' t] Heq; [done| | |].
  - apply (f_equal String.length) in Heq.
    rewrite !string_app_length in Heq. cbn in Heq. lia.
  - apply (f_equal String.length) in Heq.
    rewrite !string_app_length in Heq. cbn in Heq. lia.
  - simpl in Heq. injection Heq as -> Heq. f_equal. by apply IH.
Qed.

(** X16.  The cell builds one path per shard index, and no two of the paths are
    equal: [range(num_shard_files)] many, pairwise distinct, the path at
    position [i] being the one of shard [i]. *)
Theorem input_shard_files_distinct (num_shard_files : Z) :
  length (input_shard_files num_shard_files) = Z.to_nat num_shard_files /\
  NoDup (input_shard_files num_shard_files) /\
  forall i : nat,
    Z.of_nat i < num_shard_files ->
    input_shard_files num_shard_files !! i = Some (shard_path (Z.of_nat i)).
Proof.
  unfold input_shard_files, range. split; [|split].
  - by rewrite length_map, length_seqZ.
  - change (map ?f ?l) with (f <$> l).
    apply NoDup_fmap_2_strong; [|apply NoDup_seqZ].
    intros i j Hi Hj Heq. apply elem_of_seqZ in Hi, Hj.
    unfold shard_path in Heq.
    do 2 apply string_app_inv_head in Heq.
    apply string_app_inv_tail in Heq.
    apply format_06d_inj in Heq; lia.
  - intros i Hi. change (map ?f ?l) with (f <$> l).
    rewrite list_lookup_fmap, lookup_seqZ_lt by done.
    cbn. by rewrite Z.add_0_l.
Qed.

End ShardFiles.

(** ** The further properties on concrete runs *)

Section MoreInstances.
Import ProgressPIActor Progress Sampling Run.

Lemma deliver_last_reports_witness :
  deliver [(0, 1); (1, 2); (0, 3)] (init 10)
  = deliver [(1, 2); (0, 3)] (init 10).
Proof.
  apply (deliver_last_reports [(0, 1); (1, 2); (0, 3)] [(1, 2); (0, 3)]
           (init 10)).
  intros task_id. cbn [last_report fst snd].
  by destruct (0 =? task_id), (1 =? task_id).
Defined.

Lemma get_progress_fresh_witness :
  exists q : Q,
    (get_progress (F := exact_float64) (init 10)).1 = Return q /\ (q == 0)%Q.
Proof.
  apply (get_progress_fresh (F := exact_float64) 10). lia.
Defined.

Lemma report_progress_monotone_witness : (2 # 10 <= 5 # 10)%Q.
Proof.
  apply (report_progress_monotone (F := exact_float64)
           (deliver [(0, 2)] (init 10)) 0 5 (2 # 10) (5 # 10)).
  - cbn. lia.
  - vm_compute. discriminate.
  - vm_compute. reflexivity.
  - vm_compute. reflexivity.
Defined.

Lemma sampling_task_reports_witness :
  sampling_task (L := exact_libm) (test_uniform 0) 5 7 (-2)
  = Return (inside_count (L := exact_libm) (test_uniform 0) 5,
            [(7, 2); (7, 4)] ++ [(7, 5)]) /\
  (0 <= 5 -> Z.of_nat (length ([(7, 2); (7, 4)] ++ [(7, 5)])) = 5 / 2 + 1).
Proof.
  apply (sampling_task_reports (L := exact_libm) (test_uniform 0) 5 7 (-2)).
  lia.
Defined.

Lemma sampling_task_no_samples_witness :
  sampling_task (L := exact_libm) (test_uniform 0) 0 7 0
  = Return (0, [(7, 0)]).
Proof.
  apply (sampling_task_no_samples (L := exact_libm) (test_uniform 0) 0 7 0).
  lia.
Defined.

Lemma sampling_task_zero_frequency_witness :
  sampling_task (L := exact_libm) (test_uniform 0) 3 7 0
  = Raise ZeroDivisionError.
Proof.
  apply (sampling_task_zero_frequency (L := exact_libm) (test_uniform 0) 3 7).
  lia.
Defined.

(** A run with two tasks of three samples each, reporting every second
    sample: task [i] sends [(i, 2)] and then [(i, 3)]. *)
Example outboxes_run :
  outboxes (L := exact_libm) (Params 2 3 2) test_uniform
  = [[(0, 2); (0, 3)]; [(1, 2); (1, 3)]].
Proof. vm_compute. reflexivity. Qed.

Lemma run_progress_monotone_witness :
  exists earlier later : Q,
    (get_progress (F := exact_float64)
       (deliver [(0, 2); (1, 2)] (progress_actor (Params 2 3 2)))).1
    = Return earlier /\
    (get_progress (F := exact_float64)
       (deliver ([(0, 2); (1, 2)] ++ [(1, 3); (0, 3)])
                (progress_actor (Params 2 3 2)))).1
    = Return later /\
    (0 <= earlier)%Q /\ (earlier <= later)%Q /\ (later <= 1)%Q.
Proof.
  apply (run_progress_monotone (L := exact_libm) (F := exact_float64)
           (Params 2 3 2) test_uniform [(0, 2); (1, 2)] [(1, 3); (0, 3)]
           [[(0, 3)]; [(1, 3)]] [[]; []]); cbn; try lia.
  - apply (deliveries_next _ 0%nat (0, 2) [(0, 3)]); [reflexivity|].
    apply (deliveries_next _ 1%nat (1, 2) [(1, 3)]); [reflexivity|].
    apply deliveries_none.
  - apply (deliveries_next _ 1%nat (1, 3) []); [reflexivity|].
    apply (deliveries_next _ 0%nat (0, 3) []); [reflexivity|].
    apply deliveries_none.
Defined.

Lemma run_complete_progress_witness :
  let a := deliver [(0, 2); (1, 2); (1, 3); (0, 3)]
             (progress_actor (Params 2 3 2)) in
  (forall task_id,
     num_samples_completed_per_task a !! task_id
     = if bool_decide (0 <= task_id < 2) then Some 3 else None) /\
  (exists q : Q, (get_progress (F := exact_float64) a).1 = Return q /\
                 (q == 1)%Q) /\
  poll (F := exact_float64) a = Return true.
Proof.
  apply (run_complete_progress (L := exact_libm) (F := exact_float64)
           (Params 2 3 2) test_uniform [(0, 2); (1, 2); (1, 3); (0, 3)]
           [[]; []]); cbn; try lia.
  - apply (deliveries_next _ 0%nat (0, 2) [(0, 3)]); [reflexivity|].
    apply (deliveries_next _ 1%nat (1, 2) [(1, 3)]); [reflexivity|].
    apply (deliveries_next _ 1%nat (1, 3) []); [reflexivity|].
    apply (deliveries_next _ 0%nat (0, 3) []); [reflexivity|].
    apply deliveries_none.
  - repeat constructor.
Defined.

Lemma polling_loop_prints_witness :
  exists printed exited,
    polling_loop (F := exact_float64)
      [[(0, 2); (1, 2)]; []; [(1, 3); (0, 3)]]
      (progress_actor (Params 2 3 2)) []
    = Return (printed, exited) /\
    Forall (fun pct => 0 <= pct <= 100) printed /\
    StronglySorted Z.le printed /\
    (exited = true -> last printed = Some 100) /\
    ([[(0, 2); (1, 2)]; []; [(1, 3); (0, 3)]] <> [] ->
     Forall (fun queue : list call => queue = []) [[]; []] ->
     exited = true).
Proof.
  apply (polling_loop_prints (L := exact_libm) (F := exact_float64)
           (Params 2 3 2) test_uniform
           [[(0, 2); (1, 2)]; []; [(1, 3); (0, 3)]] [[]; []]); cbn; try lia.
  apply (deliveries_next _ 0%nat (0, 2) [(0, 3)]); [reflexivity|].
  apply (deliveries_next _ 1%nat (1, 2) [(1, 3)]); [reflexivity|].
  apply (deliveries_next _ 1%nat (1, 3) []); [reflexivity|].
  apply (deliveries_next _ 0%nat (0, 3) []); [reflexivity|].
  apply deliveries_none.
Defined.

(** What the loop prints on that run: 66%, 66%, 100%. *)
Example polling_loop_run_prints :
  polling_loop (F := exact_float64)
    [[(0, 2); (1, 2)]; []; [(1, 3); (0, 3)]]
    (progress_actor (Params 2 3 2)) []
  = Return ([66; 66; 100], true).
Proof. vm_compute. reflexivity. Qed.

Lemma zero_total_raises_witness :
  (exists counts,
     ray_get_results (L := exact_libm) (Params 2 0 0) test_uniform
     = Return counts) /\
  pi (L := exact_libm) (F := exact_float64) (Params 2 0 0) test_uniform
  = Raise ZeroDivisionError /\
  polling_loop (F := exact_float64) [[(0, 0)]; [(1, 0)]]
               (progress_actor (Params 2 0 0)) []
  = Raise ZeroDivisionError.
Proof.
  apply (zero_total_raises (L := exact_libm) (F := exact_float64)
           (Params 2 0 0) test_uniform [(0, 0)] [[(1, 0)]]).
  reflexivity.
Defined.

End MoreInstances.

Section MoreResultsInstances.
Import ActorTree Results.

Lemma wait_loop_key_error_witness :
  wait_loop 1 [recorded_xgboost; delete "state"%string recorded_decision_tree]
            []
  = Some (Raise (KeyError "state")).
Proof.
  apply (wait_loop_key_error 0
           [recorded_xgboost; delete "state"%string recorded_decision_tree]
           []).
  apply Exists_cons_tl, Exists_cons_hd. reflexivity.
Defined.

Lemma sorted_by_mse_missing_key_witness :
  sorted_by_mse [recorded_xgboost;
                 delete "mse"%string recorded_decision_tree]
  = Raise (KeyError "mse").
Proof.
  apply (sorted_by_mse_missing_key
           [recorded_xgboost; delete "mse"%string recorded_decision_tree]).
  apply Exists_cons_tl, Exists_cons_hd. reflexivity.
Defined.

Lemma sorted_by_mse_sorted_input_witness :
  sorted_by_mse [recorded_xgboost; recorded_random_forest;
                 recorded_decision_tree]
  = Return [recorded_xgboost; recorded_random_forest;
            recorded_decision_tree].
Proof.
  apply (sorted_by_mse_sorted_input
           [recorded_xgboost; recorded_random_forest;
            recorded_decision_tree]).
  - repeat constructor; by eexists.
  - repeat constructor;
      (eexists _, _; split; [reflexivity|split; [reflexivity|by vm_compute]]).
Defined.

(** Two records with the same 'mse': the one listed first stays first. *)
Lemma sorted_by_mse_stable_witness :
  let tie := <["name" := VStr "tie"]> recorded_xgboost in
  List.filter (mse_is (2212 # 10000))
              [recorded_xgboost; tie; recorded_random_forest]
  = List.filter (mse_is (2212 # 10000))
                [recorded_random_forest; recorded_xgboost; tie].
Proof.
  apply (sorted_by_mse_stable
           [recorded_random_forest; recorded_xgboost;
            <["name" := VStr "tie"]> recorded_xgboost]
           [recorded_xgboost; <["name" := VStr "tie"]> recorded_xgboost;
            recorded_random_forest]
           (2212 # 10000)).
  - repeat constructor; by eexists.
  - vm_compute. reflexivity.
Defined.

End MoreResultsInstances.
